(** * Consensus core (pbft / istanbul) and the [simple] persistence layer

    A shallow embedding of
    - [consensus/pbft/core/core.go]: the [core] struct, [New], [broadcast],
      [nextSequence], [nextViewNumber], [isPrimary], [makeProposal],
      [commit], [setState], [Address];
    - the [simple] package's [ethDB] ([Save], [Restore], [getKey]);
    - the [bzz] package's [Api.Resolve] and [Api.Upload], over the parts
      of the Go library and of the DPA that they call;
    - the Prepare handling exercised by
      [consensus/istanbul/core/prepare_test.go] ([handlePrepare],
      [verifyPrepare]), whose implementation is not part of the sources
      and is modelled from the specification.

    Conventions.
    - [*big.Int] is [option Z]: [None] is the nil pointer.
    - Calls to collaborators (the Backend, the event mux, the logger) and
      invocations of [processBacklog] are recorded, in program order, in
      the trace of the [world]; the fields of the [core] struct are the
      [w_core] component.
    - A nil-pointer dereference makes a computation return [None]. *)

From Stdlib Require Import ZArith Lia List String Bool.
From Stdlib Require Import Floats.SpecFloat.
From stdpp Require Import base option gmap strings list.

Open Scope Z_scope.

(** ** float64, as far as [New] uses it *)

Module Float64.

(** IEEE 754 binary64. *)
Definition prec : Z := 53.
Definition emax : Z := 1024.

Abbreviation float64 := spec_float (only parsing).

(** Go's conversion [float64(n)] of an integer: round to nearest even. *)
Definition of_int (n : Z) : float64 := binary_normalize prec emax n 0 false.

Definition div (x y : float64) : float64 := SFdiv prec emax x y.
Definition sub (x y : float64) : float64 := SFsub prec emax x y.

(** [math.Ceil]: the least integer value greater than or equal to [x];
    infinities, NaN and zeros are returned as they are. *)
Definition Ceil (x : float64) : float64 :=
  match x with
  | S754_finite s m e =>
      if 0 <=? e then x
      else
        let k := 2 ^ (- e) in
        let i := if s then - (Z.pos m / k) else (Z.pos m + k - 1) / k in
        binary_normalize prec emax i 0 s
  | _ => x
  end.

(** Go's conversion [int64(x)]: the fraction is discarded (truncation
    towards zero).  A value that does not fit is implementation-defined
    in Go; amd64 yields the minimal [int64]. *)
Definition to_int64 (x : float64) : Z :=
  match x with
  | S754_zero _ => 0
  | S754_finite s m e =>
      let a := if 0 <=? e then Z.pos m * 2 ^ e else Z.pos m / 2 ^ (- e) in
      let v := if s then - a else a in
      if (- 2 ^ 63 <=? v) && (v <? 2 ^ 63) then v else - 2 ^ 63
  | _ => - 2 ^ 63
  end.

(** The constants of [New] as floats: [float64(3)] and [float64(1)]. *)
Definition three : float64 := S754_finite false 6755399441055744 (-51).
Definition one : float64 := S754_finite false 4503599627370496 (-52).

(** Where the remainder [r] of a division by three lies with respect to
    one half: the location that [SFdiv] hands to the rounding. *)
Definition loc3 (r : Z) : location :=
  if r =? 0 then loc_Exact else loc_Inexact (2 * r ?= 3).

(** The number of binary digits of a mantissa. *)
Abbreviation D p := (Z.pos (digits2_pos p)).

End Float64.

(** ** Data model *)

Abbreviation Address := Z (only parsing).   (* common.Address, 20 bytes *)
Abbreviation Hash := Z (only parsing).      (* common.Hash, 32 bytes *)
Abbreviation Bytes := (list Byte.byte) (only parsing).
Abbreviation bigInt := (option Z) (only parsing).   (* *big.Int *)

(** [type State uint64] with its five constants. *)
Inductive State :=
| StateAcceptRequest
| StatePreprepared
| StatePrepared
| StateCommitted
| StateCheckpointReady.

Definition State_uint64 (s : State) : Z :=
  match s with
  | StateAcceptRequest => 0
  | StatePreprepared => 1
  | StatePrepared => 2
  | StateCommitted => 3
  | StateCheckpointReady => 4
  end.

#[global] Instance State_eq_dec : EqDecision State.
Proof. solve_decision. Defined.

(** [pbft.View] *)
Record View := mkView {
  ViewNumber : bigInt;
  Sequence : bigInt;
}.

(** [pbft.ProposalHeader], [pbft.Proposal], [pbft.Request] *)
Record ProposalHeader := mkProposalHeader {
  hdr_Sequence : bigInt;
  ParentHash : Hash;
  DataHash : Hash;
}.

Record Proposal := mkProposal {
  Header : ProposalHeader;
  Payload : Bytes;
}.

Record Request := mkRequest {
  req_Payload : Bytes;
}.

(** [pbft.Preprepare]: a view and the proposal made in it. *)
Record Preprepare := mkPreprepare {
  pp_View : View;
  pp_Proposal : Proposal;
}.

(** [pbft.Subject]: what Prepare and Commit votes attest to. *)
Record Subject := mkSubject {
  sub_View : View;
  Digest : Hash;
}.

#[global] Instance View_eq_dec : EqDecision View.
Proof. solve_decision. Defined.
#[global] Instance Subject_eq_dec : EqDecision Subject.
Proof. solve_decision. Defined.

(** Go errors.  The five protocol rejections are the sentinel values the
    handlers return; [errFailedDecodePrepare] is the handler's answer to
    a message that does not decode; [errOther] stands for any other
    error value (encoding, storage). *)
Inductive Error :=
| errOldMessage
| errFutureMessage
| errInconsistentSubject
| errNotFromProposer
| errUnauthorizedAddress
| errFailedDecodePrepare
| errOther (what : string).

#[global] Instance Error_eq_dec : EqDecision Error.
Proof. solve_decision. Defined.

(** A Go result [(T, error)]. *)
Inductive result (A : Type) :=
| Ok (a : A)
| Err (e : Error).
Arguments Ok {A} a.
Arguments Err {A} e.

(** The wire message [{Code, Msg, Address}] and the typed values a
    message carries ([msg interface{}] in [broadcast]). *)
Record Message := mkMessage {
  Code : Z;
  Msg : Bytes;
  msg_Address : Address;
}.

Inductive TypedMsg :=
| MsgPreprepare (p : Preprepare)
| MsgSubject (s : Subject)
| MsgOpaque (tag : string).   (* any other Go value *)

(** Modelled from the spec: the message codes, whose declaration is
    missing from the sources, numbered in the order of the enum
    (PrePrepare, Prepare, Commit). *)
Definition msgPreprepare : Z := 0.
Definition msgPrepare : Z := 1.
Definition msgCommit : Z := 2.

(** Modelled from the spec: the type [snapshot] of the round the core
    works on (the RoundState of the specification), whose declaration is
    missing from the sources.  [commit] reads its [Preprepare],
    [ViewNumber] and [Sequence]; the prepare and commit votes are kept
    in two sets keyed by the sender's address. *)
Record snapshot := mkSnapshot {
  snap_Preprepare : option Preprepare;
  snap_ViewNumber : bigInt;
  snap_Sequence : bigInt;
  Prepares : gmap Z Subject;
  Commits : gmap Z Subject;
}.

(** Modelled from the spec: an entry of a sender's backlog queue, a
    message and the view it is for (the priority of the queue). *)
Record backlogEntry := mkBacklogEntry {
  be_view : View;
  be_msg : Message;
}.

(** What the core reads from its [pbft.Backend]. *)
Record Backend := mkBackend {
  bk_Address : Address;
  bk_Validators : list Z;
  bk_IsProposer : bool;
  bk_Hash : Bytes -> Hash;
}.

(** The types of events [New] subscribes to, and event values. *)
Inductive EventType :=
| RequestEvent
| ConnectionEvent
| MessageEvent
| CheckpointEvent
| backlogEventT
| buildCheckpointEventT.

Inductive Event :=
| backlogEvent (src : Address) (msg : Message)
| buildCheckpointEvent.

(** [type core struct] (the logger and the mutexes carry no data). *)
Record core := mkCore {
  address : Address;
  N : Z;
  F : Z;
  state : State;
  backend : Backend;
  events : list EventType;
  sequence : bigInt;
  viewNumber : bigInt;
  completed : bool;
  subject : option Subject;
  backlogs : gmap Z (list backlogEntry);
  current : option snapshot;
  snapshots : list snapshot;
}.

Definition set_state (s : State) (c : core) : core :=
  mkCore (address c) (N c) (F c) s (backend c) (events c) (sequence c)
         (viewNumber c) (completed c) (subject c) (backlogs c) (current c)
         (snapshots c).

Definition set_backlogs (b : gmap Z (list backlogEntry)) (c : core) : core :=
  mkCore (address c) (N c) (F c) (state c) (backend c) (events c)
         (sequence c) (viewNumber c) (completed c) (subject c) b (current c)
         (snapshots c).

Definition set_current (s : option snapshot) (c : core) : core :=
  mkCore (address c) (N c) (F c) (state c) (backend c) (events c)
         (sequence c) (viewNumber c) (completed c) (subject c) (backlogs c) s
         (snapshots c).

Definition set_snapshots (l : list snapshot) (c : core) : core :=
  mkCore (address c) (N c) (F c) (state c) (backend c) (events c)
         (sequence c) (viewNumber c) (completed c) (subject c) (backlogs c)
         (current c) l.

Definition set_viewNumber (v : bigInt) (c : core) : core :=
  mkCore (address c) (N c) (F c) (state c) (backend c) (events c)
         (sequence c) v (completed c) (subject c) (backlogs c) (current c)
         (snapshots c).

Definition set_sequence (v : bigInt) (c : core) : core :=
  mkCore (address c) (N c) (F c) (state c) (backend c) (events c) v
         (viewNumber c) (completed c) (subject c) (backlogs c) (current c)
         (snapshots c).

Definition set_completed (b : bool) (c : core) : core :=
  mkCore (address c) (N c) (F c) (state c) (backend c) (events c)
         (sequence c) (viewNumber c) b (subject c) (backlogs c) (current c)
         (snapshots c).

(** ** Effects *)

Inductive LogLevel := LvlDebug | LvlError.

(** One entry per call, in program order.  The entry of
    [Backend.Commit] holds the core as it is when the call is made, as
    the entry of [processBacklog] does. *)
Inductive effect :=
| Send (payload : Bytes)                      (* c.backend.Send *)
| BackendCommit (at_call : core) (p : Proposal)   (* c.backend.Commit *)
| Post (ev : Event)                           (* EventMux().Post *)
| GoPost (ev : Event)                         (* go EventMux().Post *)
| Log (lvl : LogLevel) (text : string) (err : option Error)
| CallProcessBacklog (receiver : core).       (* c.processBacklog() *)

Record world := mkWorld {
  w_core : core;
  w_trace : list effect;
}.

(** State and failure: [None] is a run-time panic. *)
Definition M (A : Type) : Type := world -> option (A * world).

Definition ret {A} (a : A) : M A := fun w => Some (a, w).

Definition bind {A B} (m : M A) (k : A -> M B) : M B :=
  fun w => match m w with
           | Some (a, w') => k a w'
           | None => None
           end.

Definition panic {A} : M A := fun _ => None.

Definition get_core : M core := fun w => Some (w_core w, w).

Definition modify_core (f : core -> core) : M unit :=
  fun w => Some (tt, mkWorld (f (w_core w)) (w_trace w)).

Definition emit (e : effect) : M unit :=
  fun w => Some (tt, mkWorld (w_core w) (w_trace w ++ [e])).

Definition emit_all (es : list effect) : M unit :=
  fun w => Some (tt, mkWorld (w_core w) (w_trace w ++ es)).

(** Dereference of a pointer. *)
Definition deref {A} (p : option A) : M A :=
  match p with
  | Some a => ret a
  | None => panic
  end.

Declare Scope go_scope.
Delimit Scope go_scope with go.
Notation "x <- m ;; k" := (bind m (fun x => k))
  (at level 100, m at next level, k at level 200, right associativity)
  : go_scope.
Notation "m ;; k" := (bind m (fun _ => k))
  (at level 100, k at level 200, right associativity) : go_scope.
Open Scope go_scope.

(** ** Parts of the repository that are outside the sources *)

(** The wire codec [pbft.Encode], [Message.ToPayload] and their inverses
    [FromPayload] and [Decode], and the digest that identifies a
    proposal.  Their code is not part of the sources: they are taken as
    parameters. *)
Class Codec := {
  Encode : Z -> TypedMsg -> result Message;
  ToPayload : Message -> result Bytes;
  FromPayload : Bytes -> result Message;
  Decode : Message -> result TypedMsg;
  ProposalHash : Proposal -> Hash;
}.

(** [core.processBacklog], called by [setState]; its code is not part of
    the sources.  It receives the core and yields the core it leaves and
    the calls it makes. *)
Class Replay := processBacklog : core -> core * list effect.

(** ** core.go *)

(** [f := int64(math.Ceil(float64(n)/3) - 1)] *)
Definition New_f (n : Z) : Z :=
  Float64.to_int64
    (Float64.sub
       (Float64.Ceil (Float64.div (Float64.of_int n) (Float64.of_int 3)))
       (Float64.of_int 1)).

(** [New]: [Validators().Size()] is the length of the validator list. *)
Definition New (b : Backend) : core :=
  let n := Z.of_nat (length (bk_Validators b)) in
  let f := New_f n in
  {| address := bk_Address b;
     N := n;
     F := f;
     state := StateAcceptRequest;
     backend := b;
     sequence := Some 0;
     viewNumber := Some 0;
     events := [RequestEvent; ConnectionEvent; MessageEvent; CheckpointEvent;
                backlogEventT; buildCheckpointEventT];
     completed := false;
     subject := None;
     backlogs := ∅;
     current := None;
     snapshots := [] |}.

Definition isPrimary (c : core) : bool := bk_IsProposer (backend c).

Definition core_Address (c : core) : Address := address c.

Definition makeProposal (c : core) (seq : bigInt) (request : Request)
  : Proposal :=
  let header :=
    {| hdr_Sequence := seq;
       ParentHash := bk_Hash (backend c) (req_Payload request);
       DataHash := bk_Hash (backend c) (req_Payload request) |} in
  {| Header := header; Payload := req_Payload request |}.

(** [new(big.Int).Add(x, common.Big1)]; a nil [x] panics. *)
Definition nextSequence : M View :=
  c <- get_core ;;
  s <- deref (sequence c) ;;
  ret {| ViewNumber := viewNumber c; Sequence := Some (s + 1) |}.

Definition nextViewNumber : M View :=
  c <- get_core ;;
  v <- deref (viewNumber c) ;;
  ret {| ViewNumber := Some (v + 1); Sequence := sequence c |}.

Section Core.
Context {codec : Codec} {replay : Replay}.

Definition broadcast (code : Z) (msg : TypedMsg) : M unit :=
  match Encode code msg with
  | Err err => emit (Log LvlError "Failed to encode message" (Some err))
  | Ok m =>
      match ToPayload m with
      | Err err =>
          emit (Log LvlError "Failed to marshal message" (Some err))
      | Ok payload => emit (Send payload)
      end
  end.

(** The call [c.processBacklog()]. *)
Definition call_processBacklog : M unit :=
  c <- get_core ;;
  emit (CallProcessBacklog c) ;;
  modify_core (fun _ => fst (processBacklog c)) ;;
  emit_all (snd (processBacklog c)).

Definition setState (s : State) : M unit :=
  c <- get_core ;;
  if decide (state c ≠ s) then
    modify_core (set_state s) ;;
    call_processBacklog
  else ret tt.

Definition commit : M unit :=
  setState StateCommitted ;;
  c <- get_core ;;
  cur <- deref (current c) ;;
  pp <- deref (snap_Preprepare cur) ;;
  emit (Log LvlDebug "Ready to commit" None) ;;
  c <- get_core ;;
  cur <- deref (current c) ;;
  pp <- deref (snap_Preprepare cur) ;;
  emit (BackendCommit c (pp_Proposal pp)) ;;
  c <- get_core ;;
  cur <- deref (current c) ;;
  modify_core (set_snapshots (snapshots c ++ [cur])) ;;
  c <- get_core ;;
  cur <- deref (current c) ;;
  modify_core (set_viewNumber (snap_ViewNumber cur)) ;;
  c <- get_core ;;
  cur <- deref (current c) ;;
  modify_core (set_sequence (snap_Sequence cur)) ;;
  modify_core (set_completed true) ;;
  setState StateAcceptRequest ;;
  (* We build stable checkpoint every 100 requests *)
  c <- get_core ;;
  s <- deref (sequence c) ;;
  if decide (s mod 100 = 0) then emit (GoPost buildCheckpointEvent)
  else ret tt.

End Core.

(** ** Prepare handling *)

(** Modelled from the spec: the ValidatorSet contract ([Size], [F],
    [Quorum], [IsMember]), missing from the sources.  F = ceil(N/3) - 1
    in integer arithmetic, quorum = 2F+1. *)
Definition vs_Size (vs : list Z) : Z := Z.of_nat (length vs).
Definition ceil_div (a b : Z) : Z := - ((- a) / b).
Definition vs_F (vs : list Z) : Z := ceil_div (vs_Size vs) 3 - 1.
Definition vs_Quorum (vs : list Z) : Z := 2 * vs_F vs + 1.
Definition vs_IsMember (vs : list Z) (a : Z) : bool := bool_decide (a ∈ vs).

(** Modelled from the spec: the total order on views, missing from the
    sources: compare sequence first, then viewNumber.  Views with a nil
    component are not comparable. *)
Definition View_Cmp (a b : View) : option comparison :=
  match Sequence a, Sequence b, ViewNumber a, ViewNumber b with
  | Some sa, Some sb, Some va, Some vb =>
      Some (match sa ?= sb with
            | Eq => va ?= vb
            | Lt => Lt
            | Gt => Gt
            end)
  | _, _, _, _ => None
  end.

(** Modelled from the spec: the RoundState contract, missing from the
    sources.  A RoundState is keyed by its view; [Subject()] is derived
    from the accepted Preprepare (its view and the digest of its
    proposal); [AddPrepare] admits a vote only for the state's own view,
    keyed by the sender, and returns the prepare count; the quorum
    predicate compares the count with [Quorum()]. *)
Definition snap_View (cur : snapshot) : View :=
  {| ViewNumber := snap_ViewNumber cur; Sequence := snap_Sequence cur |}.

Definition snap_Subject {codec : Codec} (cur : snapshot) : option Subject :=
  match snap_Preprepare cur with
  | Some pp =>
      Some {| sub_View := pp_View pp; Digest := ProposalHash (pp_Proposal pp) |}
  | None => None
  end.

Definition set_Prepares (p : gmap Z Subject) (cur : snapshot) : snapshot :=
  {| snap_Preprepare := snap_Preprepare cur;
     snap_ViewNumber := snap_ViewNumber cur;
     snap_Sequence := snap_Sequence cur;
     Prepares := p;
     Commits := Commits cur |}.

Definition AddPrepare (sub : Subject) (sender : Z) (cur : snapshot)
  : snapshot * Z :=
  if decide (sub_View sub = snap_View cur) then
    let cur' := set_Prepares (<[sender := sub]> (Prepares cur)) cur in
    (cur', Z.of_nat (size (Prepares cur')))
  else (cur, Z.of_nat (size (Prepares cur))).

Definition PreparedQuorumReached (vs : list Z) (cur : snapshot) : bool :=
  vs_Quorum vs <=? Z.of_nat (size (Prepares cur)).

(** Modelled from the spec: the Backlog's [Push], missing from the
    sources.  A sender's queue is kept in replay order: ascending view,
    ties in arrival order. *)
Definition view_leb (a b : View) : bool :=
  match View_Cmp a b with
  | Some Gt => false
  | _ => true
  end.

Fixpoint Push (e : backlogEntry) (q : list backlogEntry) : list backlogEntry :=
  match q with
  | [] => [e]
  | x :: q' =>
      if view_leb (be_view x) (be_view e) then x :: Push e q' else e :: q
  end.

Definition storeBacklog (src : Z) (v : View) (msg : Message) : M unit :=
  modify_core (fun c =>
    set_backlogs
      (<[src := Push {| be_view := v; be_msg := msg |}
                     (default [] (backlogs c !! src))]> (backlogs c)) c).

(** Modelled from the spec: the admission check of the message handlers,
    missing from the sources.  A view already past is [errOldMessage], a
    view ahead of the current one is [errFutureMessage]; a vote for the
    current view that arrives outside Preprepared/Prepared is too early
    as well. *)
Definition checkMessage (msgCode : Z) (st : State) (cur : snapshot) (v : View)
  : option Error :=
  match View_Cmp v (snap_View cur) with
  | Some Lt => Some errOldMessage
  | Some Gt => Some errFutureMessage
  | _ =>
      if msgCode =? msgPreprepare then None
      else
        match st with
        | StatePreprepared | StatePrepared => None
        | _ => Some errFutureMessage
        end
  end.

Section Handlers.
Context {codec : Codec} {replay : Replay}.

(** Modelled from the spec: [verifyPrepare], missing from the sources
    (prepare_test.go calls it).  The vote's subject must equal
    [current.Subject()] exactly, view and digest; any mismatch is
    [errInconsistentSubject]. *)
Definition verifyPrepare (prepare : Subject) (src : Z) : M (option Error) :=
  c <- get_core ;;
  cur <- deref (current c) ;;
  if decide (Some prepare = snap_Subject cur) then ret None
  else ret (Some errInconsistentSubject).

(** Modelled from the spec: [handlePrepare], missing from the sources
    (prepare_test.go calls it).  The view check comes first, as the
    test's expected errors require; a future vote is queued in the
    Backlog; the subject must match; the sender must be a validator;
    the vote is added to the prepare set; when the quorum predicate
    turns from false to true in state Preprepared, the core broadcasts
    its Commit vote for the subject and moves to Prepared. *)
Definition handlePrepare (msg : Message) (src : Z) : M (option Error) :=
  match Decode msg with
  | Ok (MsgSubject prepare) =>
      c <- get_core ;;
      cur <- deref (current c) ;;
      match checkMessage msgPrepare (state c) cur (sub_View prepare) with
      | Some errFutureMessage =>
          storeBacklog src (sub_View prepare) msg ;;
          ret (Some errFutureMessage)
      | Some e => ret (Some e)
      | None =>
          r <- verifyPrepare prepare src ;;
          match r with
          | Some e => ret (Some e)
          | None =>
              let vs := bk_Validators (backend c) in
              if negb (vs_IsMember vs src) then
                ret (Some errUnauthorizedAddress)
              else
                let cur' := fst (AddPrepare prepare src cur) in
                modify_core (set_current (Some cur')) ;;
                if negb (PreparedQuorumReached vs cur)
                   && PreparedQuorumReached vs cur'
                   && bool_decide (state c = StatePreprepared)
                then
                  broadcast msgCommit (MsgSubject prepare) ;;
                  setState StatePrepared ;;
                  ret None
                else ret None
          end
      end
  | _ => ret (Some errFailedDecodePrepare)
  end.

(** Votes handled one after the other, as the loop of
    TestHandlePrepare does; it stops at the first error. *)
Fixpoint handlePrepares (votes : list (Message * Z)) : M (option Error) :=
  match votes with
  | [] => ret None
  | (msg, src) :: rest =>
      r <- handlePrepare msg src ;;
      match r with
      | Some e => ret (Some e)
      | None => handlePrepares rest
      end
  end.

End Handlers.

(** The payloads handed to [Backend.Send], oldest first. *)
Definition sentMsgs (t : list effect) : list Bytes :=
  omap (fun e => match e with Send p => Some p | _ => None end) t.

(** The number of invocations of [processBacklog] in a trace. *)
Definition is_processBacklog_call (e : effect) : bool :=
  match e with
  | CallProcessBacklog _ => true
  | _ => false
  end.

Definition processBacklog_calls (t : list effect) : nat :=
  length (List.filter is_processBacklog_call t).

(** The number of [buildCheckpointEvent]s posted to the event mux in a
    trace, and the number of those posted from a goroutine of their own. *)
Definition is_checkpoint_post (e : effect) : bool :=
  match e with
  | Post buildCheckpointEvent | GoPost buildCheckpointEvent => true
  | _ => false
  end.

Definition is_async_checkpoint_post (e : effect) : bool :=
  match e with
  | GoPost buildCheckpointEvent => true
  | _ => false
  end.

Definition checkpoint_posts (t : list effect) : nat :=
  length (List.filter is_checkpoint_post t).

Definition async_checkpoint_posts (t : list effect) : nat :=
  length (List.filter is_async_checkpoint_post t).

(** What is assumed of [processBacklog], after the specification: it
    works on the backlog queues only, and hands the messages that became
    admissible to the event mux as [backlogEvent]s, for the core's event
    loop to process. *)
Definition is_backlog_post (e : effect) : bool :=
  match e with
  | Post (backlogEvent _ _) | GoPost (backlogEvent _ _) => true
  | _ => false
  end.

Class ReplayFrame (replay : Replay) : Prop := {
  processBacklog_core : forall c,
    fst (processBacklog c) = set_backlogs (backlogs (fst (processBacklog c))) c;
  processBacklog_posts : forall c,
    forallb is_backlog_post (snd (processBacklog c)) = true;
}.

(** ** A replay and a codec to run the core with *)

(** Modelled from the spec: the Backlog replay [processBacklog], missing
    from the sources.  Each sender's queue is drained from its head:
    entries behind the current view are dropped, admissible entries are
    posted to the event mux as [backlogEvent]s, and the drain stops at
    the first entry that is still too early. *)
Fixpoint drain (st : State) (cur : snapshot) (src : Z)
    (q : list backlogEntry) : list backlogEntry * list effect :=
  match q with
  | [] => ([], [])
  | e :: q' =>
      match checkMessage (Code (be_msg e)) st cur (be_view e) with
      | Some errFutureMessage => (q, [])
      | Some _ => drain st cur src q'
      | None =>
          let r := drain st cur src q' in
          (fst r, GoPost (backlogEvent src (be_msg e)) :: snd r)
      end
  end.

Definition specProcessBacklog (c : core) : core * list effect :=
  match current c with
  | None => (c, [])
  | Some cur =>
      (set_backlogs
         (map_imap (fun src q => Some (fst (drain (state c) cur src q)))
                   (backlogs c)) c,
       concat (List.map (fun '(src, q) => snd (drain (state c) cur src q))
                        (map_to_list (backlogs c))))
  end.

#[local] Instance specReplay : Replay := specProcessBacklog.

(** A codec over ASCII digits.  A positive number is written bit by bit,
    least significant first, and closed by a full stop; an integer has a
    sign character in front; a nil [*big.Int] is the letter n. *)
Module Wire.
Import Byte.

Fixpoint enc_pos (p : positive) : Bytes :=
  match p with
  | xH => [x2e]
  | xO q => x30 :: enc_pos q
  | xI q => x31 :: enc_pos q
  end.

Fixpoint dec_pos (l : Bytes) : option (positive * Bytes) :=
  match l with
  | x2e :: r => Some (xH, r)
  | x30 :: r =>
      match dec_pos r with
      | Some (q, r') => Some (xO q, r')
      | None => None
      end
  | x31 :: r =>
      match dec_pos r with
      | Some (q, r') => Some (xI q, r')
      | None => None
      end
  | _ => None
  end.

Definition enc_big (z : bigInt) : Bytes :=
  match z with
  | None => [x6e]
  | Some Z0 => [x7a]
  | Some (Zpos p) => x2b :: enc_pos p
  | Some (Zneg p) => x2d :: enc_pos p
  end.

Definition dec_big (l : Bytes) : option (bigInt * Bytes) :=
  match l with
  | x6e :: r => Some (None, r)
  | x7a :: r => Some (Some 0, r)
  | x2b :: r =>
      match dec_pos r with
      | Some (p, r') => Some (Some (Zpos p), r')
      | None => None
      end
  | x2d :: r =>
      match dec_pos r with
      | Some (p, r') => Some (Some (Zneg p), r')
      | None => None
      end
  | _ => None
  end.

Definition enc_Z (z : Z) : Bytes := enc_big (Some z).

Definition dec_Z (l : Bytes) : option (Z * Bytes) :=
  match dec_big l with
  | Some (Some z, r) => Some (z, r)
  | _ => None
  end.

Definition enc_Subject (s : Subject) : Bytes :=
  enc_big (ViewNumber (sub_View s)) ++ enc_big (Sequence (sub_View s))
  ++ enc_Z (Digest s).

Definition dec_Subject (l : Bytes) : option Subject :=
  match dec_big l with
  | Some (vn, r1) =>
      match dec_big r1 with
      | Some (sq, r2) =>
          match dec_Z r2 with
          | Some (d, []) =>
              Some {| sub_View := {| ViewNumber := vn; Sequence := sq |};
                      Digest := d |}
          | _ => None
          end
      | None => None
      end
  | None => None
  end.

Definition Encode (code : Z) (msg : TypedMsg) : result Message :=
  match msg with
  | MsgSubject s =>
      Ok {| Code := code; Msg := enc_Subject s; msg_Address := 0 |}
  | _ => Err (errOther "unsupported type")
  end.

Definition ToPayload (m : Message) : result Bytes :=
  Ok (enc_Z (Code m) ++ enc_Z (msg_Address m) ++ Msg m).

Definition FromPayload (l : Bytes) : result Message :=
  match dec_Z l with
  | Some (code, r1) =>
      match dec_Z r1 with
      | Some (a, body) =>
          Ok {| Code := code; Msg := body; msg_Address := a |}
      | None => Err (errOther "malformed payload")
      end
  | None => Err (errOther "malformed payload")
  end.

Definition Decode (m : Message) : result TypedMsg :=
  match dec_Subject (Msg m) with
  | Some s => Ok (MsgSubject s)
  | None => Err (errOther "malformed message")
  end.

(** The digest of a proposal is the data hash of its header. *)
Definition ProposalHash (p : Proposal) : Hash := DataHash (Header p).

End Wire.

#[local] Instance wireCodec : Codec :=
  {| Encode := Wire.Encode;
     ToPayload := Wire.ToPayload;
     FromPayload := Wire.FromPayload;
     Decode := Wire.Decode;
     ProposalHash := Wire.ProposalHash |}.

(** What the core needs from the codec: a Subject is encoded without
    error, and decoding what was encoded gives back the code and the
    Subject. *)
Class CodecLaws (codec : Codec) : Prop := {
  Subject_roundtrip : forall code s,
    exists m payload,
      Encode code (MsgSubject s) = Ok m /\ ToPayload m = Ok payload /\
      exists m', FromPayload payload = Ok m' /\ Code m' = code /\
                 Decode m' = Ok (MsgSubject s);
}.

(** ** Package simple: the persistence layer *)

Module Simple.

(** [ethdb.Database], as far as [ethDB] uses it.  [Put] yields the
    database it leaves and its error; [Get] yields the stored blob or
    its error. *)
Class Database (D : Type) := {
  Put : D -> Bytes -> Bytes -> D * option Error;
  Get : D -> Bytes -> result Bytes;
}.

(** [json.Marshal] and [json.Unmarshal] at the type of the values that
    are stored.  [Unmarshal blob val] yields what [val] points to
    afterwards, and the error. *)
Class Json (V : Type) := {
  Marshal : V -> result Bytes;
  Unmarshal : Bytes -> V -> V * option Error;
}.

(** [strings.Join] *)
Fixpoint strings_Join (elems : list string) (sep : string) : string :=
  match elems with
  | [] => ""
  | [a] => a
  | a :: rest => a +:+ sep +:+ strings_Join rest sep
  end.

Definition prefixKey : string := "pbft".

Record ethDB (D : Type) := mkEthDB { db : D }.
Arguments mkEthDB {D} db.
Arguments db {D} e.

Definition newDBer {D} (d : D) : ethDB D := mkEthDB d.

Definition getKey (key : string) : string :=
  strings_Join [prefixKey; key] "_".

Section EthDB.
Context {D V : Type} {database : Database D} {json : Json V}.

(** [append] with a single argument returns that argument. *)
Definition Save (e : ethDB D) (key : string) (val : V)
  : ethDB D * option Error :=
  match Marshal val with
  | Err err => (e, Some err)
  | Ok blob =>
      let r := Put (db e) (list_byte_of_string (getKey key)) blob in
      (mkEthDB (fst r), snd r)
  end.

Definition Restore (e : ethDB D) (key : string) (val : V)
  : V * option Error :=
  match Get (db e) (list_byte_of_string (getKey key)) with
  | Err err => (val, Some err)
  | Ok blob =>
      match Unmarshal blob val with
      | (val', Some err) => (val', Some err)
      | (val', None) => (val', None)
      end
  end.

End EthDB.

(** A store that keeps what is put: reading a key after a [Put] that
    reported no error gives the blob that was put. *)
Class Faithful (D : Type) {database : Database D} : Prop :=
  get_put : forall d k blob d',
    Put d k blob = (d', None) -> Get d' k = Ok blob.

(** An in-memory database: a map from [string(key)] to the blob; [Put]
    never fails, [Get] of an absent key does. *)
#[global] Instance memDatabase : Database (gmap string Bytes) :=
  {| Put := fun (d : gmap string Bytes) (k blob : Bytes) =>
              (<[string_of_list_byte k := blob]> d, None);
     Get := fun (d : gmap string Bytes) (k : Bytes) =>
              match d !! string_of_list_byte k with
              | Some blob => Ok blob
              | None => Err (errOther "not found")
              end |}.

(** A database whose every operation fails. *)
#[global] Instance brokenDatabase : Database unit :=
  {| Put := fun (d : unit) _ _ => (d, Some (errOther "put failed"));
     Get := fun _ _ => Err (errOther "get failed") |}.

(** Go values to store: a [bool], or a channel, which JSON cannot
    represent. *)
Inductive GoValue :=
| GoBool (b : bool)
| GoChan.

(** JSON at these values: a [bool] is written as [true] or [false] and
    read back from them; a channel is an unsupported type. *)
#[global] Instance goJson : Json GoValue :=
  {| Marshal := fun v : GoValue =>
       match v with
       | GoBool b => Ok (list_byte_of_string (if b then "true" else "false"))
       | GoChan => Err (errOther "json: unsupported type: chan int")
       end;
     Unmarshal := fun (blob : Bytes) (val : GoValue) =>
       match val with
       | GoChan => (val, Some (errOther "json: cannot unmarshal into chan"))
       | GoBool _ =>
           if String.eqb (string_of_list_byte blob) "true"
           then (GoBool true, None)
           else if String.eqb (string_of_list_byte blob) "false"
                then (GoBool false, None)
                else (val, Some (errOther "invalid character"))
       end |}.

End Simple.

(** ** Concrete inputs *)

(** Four validators, as in TestHandlePrepare ([N = 4], [F = 1]). *)
Definition backend4 : Backend :=
  {| bk_Address := 1;
     bk_Validators := [1; 2; 3; 4];
     bk_IsProposer := true;
     bk_Hash := fun payload => Z.of_nat (length payload) |}.

Definition proposal0 : Proposal :=
  makeProposal (New backend4) (Some 1) {| req_Payload := [] |}.

(** [newTestRoundState] of the tests: a round for [view] with an
    accepted Preprepare for the test proposal and no votes yet. *)
Definition newTestRoundState (view : View) : snapshot :=
  {| snap_Preprepare := Some {| pp_View := view; pp_Proposal := proposal0 |};
     snap_ViewNumber := ViewNumber view;
     snap_Sequence := Sequence view;
     Prepares := ∅;
     Commits := ∅ |}.

(** The round at view number 0 and sequence [seq]. *)
Definition round_at (seq : Z) : snapshot :=
  newTestRoundState {| ViewNumber := Some 0; Sequence := Some seq |}.

(** The subject of [newTestRoundState view] under the wire codec, and a
    Prepare vote for a subject as it arrives from the network. *)
Definition testSubject (view : View) : Subject :=
  {| sub_View := view; Digest := Wire.ProposalHash proposal0 |}.

Definition prepareVote (s : Subject) (sender : Z) : Message * Z :=
  ({| Code := msgPrepare; Msg := Wire.enc_Subject s; msg_Address := sender |},
   sender).

Definition view_of (vn seq : Z) : View :=
  {| ViewNumber := Some vn; Sequence := Some seq |}.

(** A core of [backend4] working on [round_at seq] in state [st], and
    nothing in its trace. *)
Definition world_at (st : State) (seq : Z) : world :=
  {| w_core := set_state st (set_current (Some (round_at seq)) (New backend4));
     w_trace := [] |}.

(** A backend that reports [n] validators, with the addresses 0 to
    [n - 1]. *)
Definition backend_of_size (n : nat) : Backend :=
  {| bk_Address := 0;
     bk_Validators := List.map Z.of_nat (seq 0 n);
     bk_IsProposer := true;
     bk_Hash := fun payload => Z.of_nat (length payload) |}.

(** What the tests look at after a run: the error, the state, the size
    of the prepare set and the decoded messages handed to [Send]. *)
Definition observed (r : option (option Error * world))
  : option (option Error * State * option nat
            * list (option (Z * result TypedMsg))) :=
  option_map
    (fun r =>
       (fst r, state (w_core (snd r)),
        option_map (fun cur => size (Prepares cur)) (current (w_core (snd r))),
        List.map (fun p => match FromPayload p with
                           | Ok m => Some (Code m, Decode m)
                           | Err _ => None
                           end)
                 (sentMsgs (w_trace (snd r)))))
    r.

(** ** Package bzz: [Api.Resolve] and [Api.Upload] *)

Module Bzz.

(** [type Key []byte]; a nil slice is [None] where the code can tell it
    from an empty one. *)
Abbreviation Key := Bytes.

(** One step of [filepath.Walk]: the arguments it hands to its callback,
    with [info.IsDir()] for [info]. *)
Record WalkEntry := mkWalkEntry {
  we_path : string;
  we_IsDir : bool;
  we_err : option Error;
}.

(** [resolver.Resolver], as far as [Resolve] uses it:
    [KeyToContentHash] yields [hash.Bytes()] and the error. *)
Record Resolver_t := mkResolver {
  KeyToContentHash : Bytes -> Bytes * option Error;
}.

(** The fields of [Api] that are not behind [Env] below. *)
Record Api := mkApi {
  port : string;
  Resolver : option Resolver_t;
}.

(** What [Api] calls outside the sources: the Go library, the package
    [common], and the DPA behind [self.dpa].  [SplitHostPort] yields the
    host, the port and [err.Error()]; [Walk root] is the sequence of
    callback arguments that [filepath.Walk] goes through on [root] as
    long as the callback returns nil; [openAndStore path] is what the
    goroutine of a file leaves in [hashes[i]] and [errors[i]]; [Store] is
    [self.dpa.Store] on the bytes of the manifest. *)
Class Env := {
  PathSeparator : Ascii.ascii;
  ExpandHomePath : string -> string;
  hex064 : Key -> string;                (* fmt.Sprintf("%064x", key) *)
  SplitHostPort : string -> string * string * option string;
  Hex2Bytes : string -> Bytes;
  Sha3Hash : Bytes -> Bytes;             (* BytesToHash(crypto.Sha3(b)) *)
  Walk : string -> list WalkEntry;
  openAndStore : string -> Key * option Error;
  Store : Bytes -> Key * option Error;
}.

(** [hashMatcher = regexp.MustCompile("^[0-9A-Fa-f]{64}")] *)
Definition is_hex (c : Ascii.ascii) : bool :=
  let n := Ascii.nat_of_ascii c in
  ((48 <=? n) && (n <=? 57) || (65 <=? n) && (n <=? 70)
   || (97 <=? n) && (n <=? 102))%nat.

Fixpoint hex_prefix (k : nat) (s : string) : bool :=
  match k with
  | O => true
  | S k' =>
      match s with
      | String c s' => is_hex c && hex_prefix k' s'
      | EmptyString => false
      end
  end.

Definition hashMatcher_MatchString (s : string) : bool := hex_prefix 64 s.

(** The double quote, for the JSON texts below. *)
Definition dq : string := String (Ascii.ascii_of_nat 34) EmptyString.

(** [`{"entries":[`] *)
Definition manifest_open : string :=
  "{" +:+ dq +:+ "entries" +:+ dq +:+ ":[".

(** [fmt.Sprintf(`{"hash":"%064x","path":"%s","contentType":"text/plain"}%s`,
    hash, path, sc)] *)
Definition manifest_entry {env : Env} (hash : Key) (path sc : string)
  : string :=
  "{" +:+ dq +:+ "hash" +:+ dq +:+ ":" +:+ dq +:+ hex064 hash +:+ dq
  +:+ "," +:+ dq +:+ "path" +:+ dq +:+ ":" +:+ dq +:+ path +:+ dq
  +:+ "," +:+ dq +:+ "contentType" +:+ dq +:+ ":" +:+ dq +:+ "text/plain"
  +:+ dq +:+ "}" +:+ sc.

(** [path[start:]] *)
Definition slice_from (start : nat) (path : string) : string :=
  substring start (String.length path - start) path.

(** The calls of [Upload] into the file system and the DPA: the
    goroutine of a file, which opens the file and, when that succeeds,
    stores it, and the store of the manifest. *)
Inductive io_call :=
| OpenAndStore (path : string)
| StoreManifest (manifest : Bytes).

Section Api.
Context {env : Env}.

(** [Resolve]: the named result [errR] is assigned on one path only;
    the errors of the resolver go to the local [err]. *)
Definition Resolve (self : Api) (hostport : string)
  : option Key * option Error :=
  let '(host, port, err) := SplitHostPort hostport in
  let go (host : string) : option Key * option Error :=
    if hashMatcher_MatchString host then (Some (Hex2Bytes host), None)
    else
      match Resolver self with
      | Some r =>
          let hostHash := Sha3Hash (Hex2Bytes host) in
          let '(hash, err) := KeyToContentHash r hostHash in
          (Some hash, None)
      | None => (None, None)
      end in
  match err with
  | Some msg =>
      if decide (msg = "missing port in address " +:+ hostport)
      then go hostport
      else (None,
            Some (errOther
                    ("invalid host '" +:+ hostport +:+ "': " +:+ msg)))
  | None => go host
  end.

(** The offset behind [localpath] and its separator. *)
Definition Upload_start (localpath : string) : nat :=
  let start := String.length localpath in
  if (0 <? start)%nat
     && negb (bool_decide
                (String.get (start - 1) localpath = Some PathSeparator))
  then S start else start.

(** The callback of [filepath.Walk] in [Upload]; [files] is the slice it
    appends to. *)
Definition walkFn (localpath : string) (start : nat)
    (files : list string) (e : WalkEntry) : list string * option Error :=
  if bool_decide (we_err e = None) && negb (we_IsDir e) then
    if (String.length (we_path e) <=? start)%nat then
      (files, Some (errOther "Path is too short"))
    else if negb (String.eqb
                    (substring 0 (String.length localpath) (we_path e))
                    localpath) then
      (files, Some (errOther "Path prefix does not match localpath"))
    else (files ++ [we_path e], we_err e)
  else (files, we_err e).

(** [filepath.Walk] calls the callback entry by entry and stops at the
    first error that it returns. *)
Fixpoint filepath_Walk
    (fn : list string -> WalkEntry -> list string * option Error)
    (entries : list WalkEntry) (files : list string)
  : list string * option Error :=
  match entries with
  | [] => (files, None)
  | e :: rest =>
      match fn files e with
      | (files', None) => filepath_Walk fn rest files'
      | (files', Some err) => (files', Some err)
      end
  end.

(** The loop that writes the manifest: [todo] holds the files from
    index [i] on, each with its [hashes[i]] and [errors[i]]. *)
Fixpoint manifest_loop (cnt start i : nat)
    (todo : list (string * (Key * option Error))) (buffer sc : string)
  : result string :=
  match todo with
  | [] => Ok buffer
  | (path, (hash, err)) :: rest =>
      match err with
      | Some e => Err e
      | None =>
          let sc := if decide (Z.of_nat i = Z.of_nat cnt - 1)
                    then "]}" else sc in
          manifest_loop cnt start (S i) rest
            (buffer +:+ manifest_entry hash (slice_from start path) sc) sc
      end
  end.

(** [Upload]; the second test of the Walk error, after the goroutines,
    is on a nil error. *)
Definition Upload (self : Api) (localpath : string)
  : string * option Error :=
  let localpath := ExpandHomePath localpath in
  let start := Upload_start localpath in
  match filepath_Walk (walkFn localpath start) (Walk localpath) [] with
  | (_, Some err) => ("", Some err)
  | (files, None) =>
      let cnt := length files in
      let stored := List.map openAndStore files in
      match manifest_loop cnt start 0 (combine files stored)
                          manifest_open "," with
      | Err err => ("", Some err)
      | Ok manifest =>
          let '(key, err2) := Store (list_byte_of_string manifest) in
          (hex064 key, err2)
      end
  end.

(** [Upload] again, with the calls it makes next to its result.  A
    goroutine is started for every file, and all of them have run when
    [wg.Wait()] returns; their calls are listed in the order of the
    files. *)
Definition Upload_run (self : Api) (localpath : string)
  : string * option Error * list io_call :=
  let localpath := ExpandHomePath localpath in
  let start := Upload_start localpath in
  match filepath_Walk (walkFn localpath start) (Walk localpath) [] with
  | (_, Some err) => ("", Some err, [])
  | (files, None) =>
      let cnt := length files in
      let stored := List.map openAndStore files in
      let calls := List.map OpenAndStore files in
      match manifest_loop cnt start 0 (combine files stored)
                          manifest_open "," with
      | Err err => ("", Some err, calls)
      | Ok manifest =>
          let '(key, err2) := Store (list_byte_of_string manifest) in
          (hex064 key, err2,
           calls ++ [StoreManifest (list_byte_of_string manifest)])
      end
  end.

End Api.

End Bzz.

(** ** An environment to run [Api] with *)

(** Lower-case hexadecimal of a byte slice, padded with zeros on the
    left to 64 characters. *)
Definition hex_digit (n : nat) : string :=
  substring n 1 "0123456789abcdef".

Definition hex_of_bytes (b : Bytes) : string :=
  String.concat ""
    (List.map (fun x => hex_digit (Byte.to_nat x / 16)
                        +:+ hex_digit (Byte.to_nat x mod 16)) b).

Fixpoint zeros (n : nat) : string :=
  match n with
  | O => ""
  | S n' => "0" +:+ zeros n'
  end.

Definition test_hex064 (k : Bzz.Key) : string :=
  let h := hex_of_bytes k in
  zeros (64 - String.length h) +:+ h.

(** The host and the port at the first colon of [hostport]. *)
Fixpoint split_colon (s : string) : option (string * string) :=
  match s with
  | EmptyString => None
  | String c s' =>
      if Ascii.eqb c (Ascii.ascii_of_nat 58) then Some (EmptyString, s')
      else match split_colon s' with
           | Some (h, p) => Some (String c h, p)
           | None => None
           end
  end.

Definition test_SplitHostPort (hostport : string)
  : string * string * option string :=
  match split_colon hostport with
  | Some (h, p) =>
      match split_colon p with
      | Some _ => ("", "", Some ("too many colons in address " +:+ hostport))
      | None => (h, p, None)
      end
  | None => ("", "", Some ("missing port in address " +:+ hostport))
  end.

(** A file system and a DPA: [walk] is what [filepath.Walk] goes through,
    a file whose path is in [unreadable] cannot be opened, the key of a
    content is the content itself, and storing never fails. *)
Definition testEnv (walk : string -> list Bzz.WalkEntry)
    (unreadable : list string) : Bzz.Env :=
  {| Bzz.PathSeparator := Ascii.ascii_of_nat 47;
     Bzz.ExpandHomePath := fun p => p;
     Bzz.hex064 := test_hex064;
     Bzz.SplitHostPort := test_SplitHostPort;
     Bzz.Hex2Bytes := list_byte_of_string;
     Bzz.Sha3Hash := fun b => b;
     Bzz.Walk := walk;
     Bzz.openAndStore := fun path =>
       if bool_decide (path ∈ unreadable)
       then ([], Some (errOther "open: permission denied"))
       else (list_byte_of_string path, None);
     Bzz.Store := fun content => (content, None) |}.

(** The directory [root] with the file [a], the directory [sub] and the
    file [sub/b]. *)
Definition tree_walk (root : string) : list Bzz.WalkEntry :=
  [ Bzz.mkWalkEntry root true None;
    Bzz.mkWalkEntry (root +:+ "/a") false None;
    Bzz.mkWalkEntry (root +:+ "/sub") true None;
    Bzz.mkWalkEntry (root +:+ "/sub/b") false None ].

(** A path that is a regular file, and a directory without files. *)
Definition file_walk (root : string) : list Bzz.WalkEntry :=
  [ Bzz.mkWalkEntry root false None ].

Definition empty_walk (root : string) : list Bzz.WalkEntry :=
  [ Bzz.mkWalkEntry root true None ].

(** An [Api] without a resolver, and one whose resolver knows no name. *)
Definition api_plain : Bzz.Api :=
  {| Bzz.port := "8500"; Bzz.Resolver := None |}.

Definition api_failing : Bzz.Api :=
  {| Bzz.port := "8500";
     Bzz.Resolver :=
       Some {| Bzz.KeyToContentHash := fun _ =>
                 (List.repeat Byte.x00 32, Some (errOther "not found")) |} |}.

(** Sixty-four hexadecimal digits. *)
Definition hash64 : string :=
  "0123456789abcdef0123456789ABCDEF0123456789abcdef0123456789ABCDEF".

(** The directory [root] with the file [a] and the directory [sub],
    which cannot be read. *)
Definition denied_walk (root : string) : list Bzz.WalkEntry :=
  [ Bzz.mkWalkEntry root true None;
    Bzz.mkWalkEntry (root +:+ "/a") false None;
    Bzz.mkWalkEntry (root +:+ "/sub") true
                    (Some (errOther "open: permission denied")) ].

Definition env_tree : Bzz.Env := testEnv tree_walk [].
Definition env_file : Bzz.Env := testEnv file_walk [].
Definition env_empty : Bzz.Env := testEnv empty_walk [].
Definition env_unreadable : Bzz.Env := testEnv tree_walk ["/d/sub/b"].
Definition env_denied : Bzz.Env := testEnv denied_walk [].

(** [env_tree] over a library that words the error of a missing port
    with the address in front. *)
Definition reworded_SplitHostPort (hostport : string)
  : string * string * option string :=
  match split_colon hostport with
  | Some (h, p) => (h, p, None)
  | None =>
      ("", "",
       Some ("address " +:+ hostport +:+ ": missing port in address"))
  end.

Definition env_reworded : Bzz.Env :=
  {| Bzz.PathSeparator := Bzz.PathSeparator (Env := env_tree);
     Bzz.ExpandHomePath := Bzz.ExpandHomePath (Env := env_tree);
     Bzz.hex064 := Bzz.hex064 (Env := env_tree);
     Bzz.SplitHostPort := reworded_SplitHostPort;
     Bzz.Hex2Bytes := Bzz.Hex2Bytes (Env := env_tree);
     Bzz.Sha3Hash := Bzz.Sha3Hash (Env := env_tree);
     Bzz.Walk := Bzz.Walk (Env := env_tree);
     Bzz.openAndStore := Bzz.openAndStore (Env := env_tree);
     Bzz.Store := Bzz.Store (Env := env_tree) |}.

(** A core that works on [round_at 7] and holds, in the queue of
    sender 2, a Prepare for the earlier view (0, 1). *)
Definition stale_entry : backlogEntry :=
  {| be_view := view_of 0 1;
     be_msg := fst (prepareVote (testSubject (view_of 0 1)) 2) |}.

Definition world_stale : world :=
  {| w_core := set_backlogs {[ 2 := [stale_entry] ]}
                 (w_core (world_at StatePrepared 7));
     w_trace := [] |}.

(** ** Further observations *)

(** The proposals handed to [Backend.Commit], oldest first. *)
Definition committed (t : list effect) : list Proposal :=
  omap (fun e => match e with BackendCommit _ p => Some p | _ => None end) t.

(** A store whose [Put] under one key leaves what is under the other
    keys as it is, whatever error it reports. *)
Class Separate (D : Type) {database : Simple.Database D} : Prop :=
  get_put_other : forall d k blob k',
    k' <> k ->
    Simple.Get (fst (Simple.Put d k blob)) k' = Simple.Get d k'.

Section UploadInputs.
Context {env : Bzz.Env}.

(** The entries that the callback of [Upload] lets pass: no error, and
    for a regular file a path that is longer than [start] and begins
    with [localpath]. *)
Definition passes (localpath : string) (e : Bzz.WalkEntry) : Prop :=
  Bzz.we_err e = None /\
  (Bzz.we_IsDir e = false ->
   (Bzz.Upload_start localpath < String.length (Bzz.we_path e))%nat /\
   substring 0 (String.length localpath) (Bzz.we_path e) = localpath).

(** The paths of the regular files among the entries, in their order. *)
Definition regular_files (entries : list Bzz.WalkEntry) : list string :=
  List.map Bzz.we_path
           (List.filter (fun e => negb (Bzz.we_IsDir e)) entries).

(** The manifest entry of a file, without what separates it from the
    next entry. *)
Definition entry_of (localpath path : string) : string :=
  Bzz.manifest_entry (fst (Bzz.openAndStore path))
    (Bzz.slice_from (Bzz.Upload_start localpath) path) "".

End UploadInputs.

(** * Properties *)

(** ** Running monadic code *)

Lemma bind_get_core {B} (k : core -> M B) (w : world) :
  bind get_core k w = k (w_core w) w.
Proof. reflexivity. Qed.

Lemma bind_deref_Some {A B} (a : A) (k : A -> M B) (w : world) :
  bind (deref (Some a)) k w = k a w.
Proof. reflexivity. Qed.

Lemma bind_emit {B} (e : effect) (k : unit -> M B) (w : world) :
  bind (emit e) k w = k tt (mkWorld (w_core w) (w_trace w ++ [e])).
Proof. reflexivity. Qed.

Lemma bind_modify_core {B} (f : core -> core) (k : unit -> M B) (w : world) :
  bind (modify_core f) k w = k tt (mkWorld (f (w_core w)) (w_trace w)).
Proof. reflexivity. Qed.

Lemma bind_ret {A B} (a : A) (k : A -> M B) (w : world) :
  bind (ret a) k w = k a w.
Proof. reflexivity. Qed.

Ltac mstep :=
  first [ rewrite bind_get_core | rewrite bind_deref_Some | rewrite bind_emit
        | rewrite bind_modify_core | rewrite bind_ret ];
  simpl.

(** ** Traces *)

Lemma sentMsgs_app (t1 t2 : list effect) :
  sentMsgs (t1 ++ t2) = sentMsgs t1 ++ sentMsgs t2.
Proof. unfold sentMsgs. apply omap_app. Qed.

Lemma processBacklog_calls_app (t1 t2 : list effect) :
  processBacklog_calls (t1 ++ t2)
  = (processBacklog_calls t1 + processBacklog_calls t2)%nat.
Proof.
  unfold processBacklog_calls. rewrite List.filter_app. apply length_app.
Qed.

Lemma checkpoint_posts_app (t1 t2 : list effect) :
  checkpoint_posts (t1 ++ t2) = (checkpoint_posts t1 + checkpoint_posts t2)%nat.
Proof. unfold checkpoint_posts. rewrite List.filter_app. apply length_app. Qed.

Lemma async_checkpoint_posts_app (t1 t2 : list effect) :
  async_checkpoint_posts (t1 ++ t2)
  = (async_checkpoint_posts t1 + async_checkpoint_posts t2)%nat.
Proof.
  unfold async_checkpoint_posts. rewrite List.filter_app. apply length_app.
Qed.

(** A trace of backlog posts holds no Send, no invocation of
    [processBacklog] and no checkpoint request. *)
Lemma backlog_posts_only (t : list effect) :
  forallb is_backlog_post t = true ->
  sentMsgs t = [] /\ processBacklog_calls t = 0%nat /\
  checkpoint_posts t = 0%nat /\ async_checkpoint_posts t = 0%nat.
Proof.
  induction t as [| e t IH]; intros Hall; [repeat split |].
  simpl in Hall. apply andb_true_iff in Hall as [He Ht].
  destruct (IH Ht) as (IH1 & IH2 & IH3 & IH4).
  unfold processBacklog_calls, checkpoint_posts, async_checkpoint_posts in *.
  destruct e as [| | ev | ev | |]; try discriminate He;
    destruct ev; try discriminate He; simpl; auto.
Qed.

(** ** The replay modelled from the specification keeps to the backlog *)

Lemma drain_posts (st : State) (cur : snapshot) (src : Z)
    (q : list backlogEntry) :
  forallb is_backlog_post (snd (drain st cur src q)) = true.
Proof.
  induction q as [| e q IH]; [reflexivity |].
  simpl. destruct (checkMessage _ st cur (be_view e)) as [[] |]; simpl; auto.
Qed.

Lemma specReplay_frame : ReplayFrame specReplay.
Proof.
  split; intros c; unfold processBacklog, specReplay, specProcessBacklog.
  - destruct (current c); destruct c; reflexivity.
  - destruct (current c) as [cur |]; [| reflexivity]. simpl.
    induction (map_to_list (backlogs c)) as [| [src q] l IH]; [reflexivity |].
    simpl. rewrite forallb_app, drain_posts. exact IH.
Qed.

(** ** float64: the computation of F in [New] *)

Module Float64Facts.
Import Float64.

Lemma digits_bounds (p : positive) : 2 ^ (D p - 1) <= Z.pos p < 2 ^ D p.
Proof.
  induction p as [q IH | q IH |]; simpl digits2_pos;
    rewrite ?Pos2Z.inj_succ; [| | simpl; lia].
  - replace (Z.succ (D q) - 1) with (Z.succ (D q - 1)) by lia.
    assert (0 <= D q - 1) by lia.
    rewrite (Z.pow_succ_r 2 (D q - 1)), (Z.pow_succ_r 2 (D q)) by lia.
    rewrite (Pos2Z.inj_xI q). lia.
  - replace (Z.succ (D q) - 1) with (Z.succ (D q - 1)) by lia.
    assert (0 <= D q - 1) by lia.
    rewrite (Z.pow_succ_r 2 (D q - 1)), (Z.pow_succ_r 2 (D q)) by lia.
    rewrite (Pos2Z.inj_xO q). lia.
Qed.

Lemma digits_unique (p : positive) (d : Z) :
  2 ^ (d - 1) <= Z.pos p < 2 ^ d -> D p = d.
Proof.
  intros [Hlo Hhi]. pose proof (digits_bounds p) as [Hlo' Hhi'].
  assert (0 < d).
  { destruct (Z_lt_le_dec 0 d); [assumption |].
    assert (2 ^ d <= 2 ^ 0) by (apply Z.pow_le_mono_r; lia).
    simpl in *. lia. }
  destruct (Z.lt_trichotomy (D p) d) as [Hlt | [Heq | Hgt]]; [| exact Heq |].
  - assert (2 ^ D p <= 2 ^ (d - 1)) by (apply Z.pow_le_mono_r; lia). lia.
  - assert (2 ^ d <= 2 ^ (D p - 1)) by (apply Z.pow_le_mono_r; lia). lia.
Qed.

Lemma shl_value (c p : positive) :
  Z.pos (Pos.iter xO p c) = Z.pos p * 2 ^ Z.pos c.
Proof.
  induction c as [| c IH] using Pos.peano_ind.
  - simpl. lia.
  - rewrite Pos.iter_succ, Pos2Z.inj_xO, IH, Pos2Z.inj_succ.
    rewrite Z.pow_succ_r by lia. lia.
Qed.

Lemma shl_digits (c p : positive) :
  D (Pos.iter xO p c) = D p + Z.pos c.
Proof.
  induction c as [| c IH] using Pos.peano_ind.
  - simpl. lia.
  - rewrite Pos.iter_succ. simpl digits2_pos.
    rewrite Pos2Z.inj_succ, IH. lia.
Qed.

Lemma iter_pos_comm {A} (f : A -> A) (p : positive) (x : A) :
  SpecFloat.iter_pos f p (f x) = f (SpecFloat.iter_pos f p x).
Proof.
  revert x. induction p as [q IH | q IH |]; intros x; simpl;
    rewrite ?IH; reflexivity.
Qed.

Lemma iter_pos_succ_r {A} (f : A -> A) (p : positive) (x : A) :
  SpecFloat.iter_pos f (Pos.succ p) x = SpecFloat.iter_pos f p (f x).
Proof.
  revert x. induction p as [q IH | q IH |]; intros x; simpl;
    [| reflexivity | reflexivity].
  rewrite !IH, !iter_pos_comm. reflexivity.
Qed.

Lemma shr_shl (c p : positive) :
  SpecFloat.iter_pos shr_1 c (Build_shr_record (Z.pos (Pos.iter xO p c)) false false)
  = Build_shr_record (Z.pos p) false false.
Proof.
  induction c as [| c IH] using Pos.peano_ind; [reflexivity |].
  rewrite iter_pos_succ_r, Pos.iter_succ. simpl shr_1. exact IH.
Qed.

Lemma round_canonical (m : positive) (e : Z) :
  D m = 53 -> -1074 <= e <= 971 ->
  binary_round_aux prec emax false (Z.pos m) e loc_Exact
  = S754_finite false m e.
Proof.
  intros Hd He.
  assert (Hshift : fexp prec emax (Zdigits2 (Z.pos m) + e) - e = 0).
  { unfold fexp, emin, prec, emax, Zdigits2. rewrite Hd. lia. }
  unfold binary_round_aux, shr_fexp. rewrite Hshift.
  cbn [shr shr_record_of_loc shr_m shr_r shr_s loc_of_shr_record
       round_nearest_even].
  rewrite Hshift.
  cbn [shr shr_record_of_loc shr_m shr_r shr_s loc_of_shr_record
       round_nearest_even].
  unfold emax, prec. replace (e <=? 1024 - 53) with true by (symmetry; lia).
  reflexivity.
Qed.


Lemma of_int_53 (p : positive) :
  D p = 53 -> of_int (Z.pos p) = S754_finite false p 0.
Proof.
  intros Hd. unfold of_int, binary_normalize, binary_round, shl_align.
  replace (fexp prec emax (D p + 0)) with 0
    by (unfold fexp, emin, prec, emax; lia).
  cbn [Z.sub Z.opp Z.add]. apply round_canonical; [exact Hd | lia].
Qed.

Lemma of_int_shl (p c : positive) :
  D p + Z.pos c = 53 ->
  of_int (Z.pos p) = S754_finite false (Pos.iter xO p c) (Z.neg c).
Proof.
  intros Hd. unfold of_int, binary_normalize, binary_round, shl_align.
  replace (fexp prec emax (D p + 0)) with (Z.neg c)
    by (unfold fexp, emin, prec, emax; lia).
  cbn [Z.sub Z.opp Z.add]. apply round_canonical.
  - rewrite shl_digits. exact Hd.
  - pose proof (Pos2Z.is_pos (digits2_pos p)). lia.
Qed.

(** The second rounding step of [binary_round_aux] on a mantissa of 53
    digits. *)
Lemma round_finish (m : positive) (e : Z) :
  D m = 53 -> -1074 <= e <= 971 ->
  (let '(mrs, e') := shr_fexp prec emax (Z.pos m) e loc_Exact in
   match shr_m mrs with
   | Z0 => S754_zero false
   | Z.pos m' =>
       if e' <=? emax - prec then S754_finite false m' e'
       else S754_infinity false
   | Z.neg _ => S754_nan
   end) = S754_finite false m e.
Proof.
  intros Hd He.
  assert (Hshift : fexp prec emax (Zdigits2 (Z.pos m) + e) - e = 0).
  { unfold fexp, emin, prec, emax, Zdigits2. rewrite Hd. lia. }
  unfold shr_fexp. rewrite Hshift.
  cbn [shr shr_record_of_loc shr_m].
  unfold emax, prec. replace (e <=? 1024 - 53) with true by (symmetry; lia).
  reflexivity.
Qed.

Lemma rec_of_loc_m (m : Z) (l : location) : shr_m (shr_record_of_loc m l) = m.
Proof. destruct l as [| []]; reflexivity. Qed.

Lemma loc_of_rec_of_loc (m : Z) (l : location) :
  loc_of_shr_record (shr_record_of_loc m l) = l.
Proof. destruct l as [| []]; reflexivity. Qed.

(** Rounding a quotient of 53 digits: no shift. *)
Lemma round_53 (q mz : positive) (e : Z) (l : location) :
  D q = 53 -> -1074 <= e <= 971 ->
  round_nearest_even (Z.pos q) l = Z.pos mz -> D mz = 53 ->
  binary_round_aux prec emax false (Z.pos q) e l = S754_finite false mz e.
Proof.
  intros Hq He Hmz Hdz.
  assert (Hshift : fexp prec emax (Zdigits2 (Z.pos q) + e) - e = 0).
  { unfold fexp, emin, prec, emax, Zdigits2. rewrite Hq. lia. }
  unfold binary_round_aux. unfold shr_fexp at 1. rewrite Hshift.
  cbn [shr]. rewrite rec_of_loc_m, loc_of_rec_of_loc, Hmz.
  apply round_finish; assumption.
Qed.

(** Rounding a quotient of 54 digits: one bit is shifted out. *)
Lemma round_54 (q mz : positive) (e : Z) (l : location) :
  D q = 54 -> -1075 <= e <= 970 ->
  round_nearest_even
    (Z.pos q / 2)
    (loc_of_shr_record
       (Build_shr_record (Z.pos q / 2) (Z.odd (Z.pos q))
          (match l with loc_Exact => false | _ => true end)))
  = Z.pos mz ->
  D mz = 53 ->
  binary_round_aux prec emax false (Z.pos q) e l
  = S754_finite false mz (e + 1).
Proof.
  intros Hq He Hmz Hdz.
  assert (Hshift : fexp prec emax (Zdigits2 (Z.pos q) + e) - e = 1).
  { unfold fexp, emin, prec, emax, Zdigits2. rewrite Hq. lia. }
  unfold binary_round_aux. unfold shr_fexp at 1. rewrite Hshift.
  cbn [shr SpecFloat.iter_pos].
  assert (Hshr : shr_1 (shr_record_of_loc (Z.pos q) l)
                 = Build_shr_record (Z.pos q / 2) (Z.odd (Z.pos q))
                     (match l with loc_Exact => false | _ => true end)).
  { destruct q as [q' | q' |].
    - replace (Z.pos q'~1 / 2) with (Z.pos q')
        by (apply Z.div_unique with 1; lia).
      destruct l as [| []]; reflexivity.
    - replace (Z.pos q'~0 / 2) with (Z.pos q')
        by (apply Z.div_unique with 0; lia).
      destruct l as [| []]; reflexivity.
    - simpl in Hq. lia. }
  rewrite Hshr. cbn [shr_m]. rewrite Hmz.
  apply round_finish; [assumption | lia].
Qed.


Lemma of_int_3 : of_int 3 = three.
Proof. vm_compute. reflexivity. Qed.

Lemma of_int_1 : of_int 1 = one.
Proof. vm_compute. reflexivity. Qed.

Lemma div_three (m1 : positive) (e1 : Z) :
  D m1 = 53 -> -1000 <= e1 <= 900 ->
  div (S754_finite false m1 e1) three
  = binary_round_aux prec emax false ((4 * Z.pos m1) / 3) (e1 - 2)
      (loc3 ((4 * Z.pos m1) mod 3)).
Proof.
  intros Hd He. unfold div, three, SFdiv, SFdiv_core_binary.
  cbn [xorb Zdigits2]. rewrite Hd.
  change (Z.pos (digits2_pos 6755399441055744)) with 53.
  replace (Z.min (fexp prec emax (53 + e1 - (53 + -51))) (e1 - -51))
    with (e1 - 2) by (unfold fexp, emin, prec, emax; lia).
  replace (e1 - -51 - (e1 - 2)) with 53 by lia.
  rewrite Z.shiftl_mul_pow2 by lia.
  set (x := 4 * Z.pos m1).
  assert (Heucl :
    Z.div_eucl (Z.pos m1 * 2 ^ 53) 6755399441055744
    = (x / 3, (x mod 3) * 2251799813685248)).
  { rewrite (surjective_pairing (Z.div_eucl _ _)).
    change (fst (Z.div_eucl ?a ?b)) with (a / b).
    change (snd (Z.div_eucl ?a ?b)) with (a mod b).
    replace (Z.pos m1 * 2 ^ 53) with (x * 2251799813685248)
      by (unfold x; change (2 ^ 53) with (4 * 2251799813685248); lia).
    change 6755399441055744 with (3 * 2251799813685248).
    rewrite Z.div_mul_cancel_r, Z.mul_mod_distr_r by lia. reflexivity. }
  change (IntDef.Z.div_eucl (Z.pos m1 * 2 ^ 53) 6755399441055744)
    with (Z.div_eucl (Z.pos m1 * 2 ^ 53) 6755399441055744).
  rewrite Heucl. f_equal.
  unfold new_location. change (Z.even 6755399441055744) with true.
  unfold new_location_even, loc3.
  pose proof (Z.mod_pos_bound x 3 ltac:(lia)) as Hr.
  destruct (Z.eqb_spec (x mod 3) 0) as [-> | Hnz]; [reflexivity |].
  destruct (Z.eqb_spec (x mod 3 * 2251799813685248) 0) as [Hz | _]; [lia |].
  assert (Hcase : x mod 3 = 1 \/ x mod 3 = 2) by lia.
  destruct Hcase as [-> | ->]; reflexivity.
Qed.


(** The least integer above a fraction, by its bounds. *)
Lemma ceil_unique (m k c : Z) :
  0 < k -> k * (c - 1) < m <= k * c -> (m + k - 1) / k = c.
Proof.
  intros Hk Hm. symmetry. apply Z.div_unique with (m + k - 1 - k * c); lia.
Qed.

Lemma ceil_div_three (n S : Z) (m1 : positive) (e1 : Z) :
  0 < n -> Z.pos m1 = n * S -> 2 ^ (- e1) = S -> -52 <= e1 <= 0 ->
  D m1 = 53 ->
  Ceil (div (S754_finite false m1 e1) three) = of_int ((n + 2) / 3).
Proof.
  intros Hn Hm1 HS He Hd.
  rewrite div_three by (assumption || lia).
  pose proof (digits_bounds m1) as Hb. rewrite Hd in Hb.
  change (2 ^ (53 - 1)) with 4503599627370496 in Hb.
  change (2 ^ 53) with 9007199254740992 in Hb.
  set (x := 4 * Z.pos m1).
  pose proof (Z.div_mod x 3 ltac:(lia)) as Hx.
  pose proof (Z.mod_pos_bound x 3 ltac:(lia)) as Hr.
  pose proof (Z.div_mod (n + 2) 3 ltac:(lia)) as Hc.
  pose proof (Z.mod_pos_bound (n + 2) 3 ltac:(lia)) as Ht.
  set (q := x / 3) in *. set (r := x mod 3) in *.
  set (c := (n + 2) / 3) in *. set (t := (n + 2) mod 3) in *.
  assert (HSpos : 0 < S) by (rewrite <- HS; apply Z.pow_pos_nonneg; lia).
  assert (Hk4 : 2 ^ (- (e1 - 2)) = 4 * S).
  { replace (- (e1 - 2)) with (2 + - e1) by lia.
    rewrite Z.pow_add_r by lia. rewrite HS. reflexivity. }
  assert (Hk2 : 2 ^ (- (e1 - 2 + 1)) = 2 * S).
  { replace (- (e1 - 2 + 1)) with (1 + - e1) by lia.
    rewrite Z.pow_add_r by lia. rewrite HS. reflexivity. }
  assert (HnS : n * S = 3 * (S * c) + (t - 2) * S)
    by (replace n with (3 * c + t - 2) by lia; ring).
  unfold x in Hx.
  assert (Hq : 6004799503160661 <= q < 12009599006321322) by lia.
  destruct q as [| pq | pq] eqn:Hpq; [lia | | lia].
  destruct (Z_lt_le_dec (Z.pos pq) 9007199254740992) as [Hlt | Hge].
  - (* 53 digits *)
    assert (Hdq : D pq = 53) by (apply digits_unique; simpl; lia).
    assert (Hround : exists mz,
              round_nearest_even (Z.pos pq) (loc3 r) = Z.pos mz /\
              D mz = 53 /\
              4 * S * (c - 1) < Z.pos mz <= 4 * S * c).
    { assert (Hrc : r = 0 \/ r = 1 \/ r = 2) by lia.
      assert (Htc : t = 0 \/ t = 1 \/ t = 2) by lia.
      destruct Hrc as [Hr0 | [Hr0 | Hr0]]; rewrite Hr0 in *.
      - exists pq. split; [reflexivity |]. split; [exact Hdq |].
        destruct Htc as [Ht0 | [Ht0 | Ht0]]; rewrite Ht0 in *; lia.
      - exists pq. split; [reflexivity |]. split; [exact Hdq |].
        destruct Htc as [Ht0 | [Ht0 | Ht0]]; rewrite Ht0 in *; lia.
      - exists (pq + 1)%positive. split; [reflexivity |].
        split; [apply digits_unique; simpl; lia |].
        destruct Htc as [Ht0 | [Ht0 | Ht0]]; rewrite Ht0 in *; lia. }
    destruct Hround as (mz & Hmz & Hdz & Hbound).
    rewrite (round_53 pq mz (e1 - 2) (loc3 r) Hdq ltac:(lia) Hmz Hdz).
    unfold Ceil. replace (0 <=? e1 - 2) with false by (symmetry; lia).
    rewrite Hk4. rewrite (ceil_unique (Z.pos mz) (4 * S) c) by lia.
    reflexivity.
  - (* 54 digits *)
    assert (Hdq : D pq = 54) by (apply digits_unique; simpl; lia).
    pose proof (Z.div_mod (Z.pos pq) 2 ltac:(lia)) as Hhalf.
    rewrite Zmod_odd in Hhalf.
    set (q' := Z.pos pq / 2) in *.
    assert (Hround : exists mz,
              round_nearest_even q'
                (loc_of_shr_record
                   (Build_shr_record q' (Z.odd (Z.pos pq))
                      (match loc3 r with
                       | loc_Exact => false
                       | _ => true
                       end)))
              = Z.pos mz /\
              D mz = 53 /\
              2 * S * (c - 1) < Z.pos mz <= 2 * S * c).
    { assert (Hrc : r = 0 \/ r = 1 \/ r = 2) by lia.
      assert (Htc : t = 0 \/ t = 1 \/ t = 2) by lia.
      destruct (Z.odd (Z.pos pq));
        (destruct q' as [| pq' | pq'] eqn:Hq'; [lia | | lia]);
        destruct Hrc as [Hr0 | [Hr0 | Hr0]]; rewrite Hr0 in *;
        cbn [loc3 Z.eqb Z.mul Pos.mul Z.compare Pos.compare Pos.compare_cont
             loc_of_shr_record round_nearest_even]; try lia.
      all: first [ exists pq'; split; [reflexivity |];
                   split; [apply digits_unique; simpl; lia |];
                   destruct Htc as [Ht0 | [Ht0 | Ht0]]; rewrite Ht0 in *; lia
                 | exists (pq' + 1)%positive; split; [reflexivity |];
                   split; [apply digits_unique; simpl; lia |];
                   destruct Htc as [Ht0 | [Ht0 | Ht0]]; rewrite Ht0 in *;
                   lia ]. }
    destruct Hround as (mz & Hmz & Hdz & Hbound).
    rewrite (round_54 pq mz (e1 - 2) (loc3 r) Hdq ltac:(lia) Hmz Hdz).
    unfold Ceil. replace (0 <=? e1 - 2 + 1) with false by (symmetry; lia).
    rewrite Hk2. rewrite (ceil_unique (Z.pos mz) (2 * S) c) by lia.
    reflexivity.
Qed.


(** An integer below [2 ^ 53], held with 52 zero bits below it, is
    normalised without loss, and converts back to itself. *)
Lemma normalize_shl52 (pj : positive) :
  D pj <= 53 ->
  to_int64 (binary_normalize prec emax (Z.pos (Pos.iter xO pj 52)) (-52) false)
  = Z.pos pj.
Proof.
  intros Hd. pose proof (digits_bounds pj) as Hb.
  assert (Hlt : Z.pos pj < 9007199254740992).
  { destruct Hb as [_ Hb]. eapply Z.lt_le_trans; [exact Hb |].
    change 9007199254740992 with (2 ^ 53). apply Z.pow_le_mono_r; lia. }
  set (pm := Pos.iter xO pj 52).
  assert (Hdm : D pm = D pj + 52) by apply shl_digits.
  assert (Hvm : Z.pos pm = Z.pos pj * 4503599627370496) by apply shl_value.
  unfold binary_normalize, binary_round, shl_align.
  replace (fexp prec emax (D pm + -52) - -52) with (D pj - 1)
    by (unfold fexp, emin, prec, emax; lia).
  assert (Hal : (match D pj - 1 with
                 | Z.neg d => (Pos.iter xO pm d, fexp prec emax (D pm + -52))
                 | _ => (pm, -52)
                 end) = (pm, -52)).
  { destruct (D pj - 1) eqn:E; try reflexivity. lia. }
  rewrite Hal. clear Hal.
  unfold binary_round_aux. unfold shr_fexp at 1.
  replace (fexp prec emax (Zdigits2 (Z.pos pm) + -52) - -52) with (D pj - 1)
    by (unfold fexp, emin, prec, emax, Zdigits2; lia).
  destruct (D pj - 1) as [| c | c] eqn:Hc; [| | lia].
  - (* one digit: no shift *)
    cbn [shr shr_record_of_loc shr_m loc_of_shr_record round_nearest_even].
    rewrite round_finish by lia.
    unfold to_int64. change (0 <=? -52) with false. cbv iota.
    change (2 ^ (- -52)) with 4503599627370496.
    rewrite Hvm, Z.div_mul by lia.
    replace ((- 2 ^ 63 <=? Z.pos pj) && (Z.pos pj <? 2 ^ 63)) with true;
      [reflexivity |].
    symmetry. apply andb_true_iff. split; [apply Z.leb_le | apply Z.ltb_lt];
      change (2 ^ 63) with 9223372036854775808; lia.
  - (* [c] bits are shifted out, all of them zero *)
    cbn [shr shr_record_of_loc].
    assert (Hint : forall v, 0 < v < 9007199254740992 ->
              (if (- 2 ^ 63 <=? v) && (v <? 2 ^ 63) then v else - 2 ^ 63) = v).
    { intros v Hv.
      replace ((- 2 ^ 63 <=? v) && (v <? 2 ^ 63)) with true; [reflexivity |].
      symmetry. apply andb_true_iff.
      split; [apply Z.leb_le | apply Z.ltb_lt];
        change (2 ^ 63) with 9223372036854775808; lia. }
    destruct (Pos.eq_dec c 52%positive) as [-> | Hne].
    + unfold pm. rewrite shr_shl.
      cbn [shr_m loc_of_shr_record round_nearest_even].
      change (-52 + 52) with 0.
      rewrite round_finish by lia.
      unfold to_int64. change (0 <=? 0) with true. cbv iota.
      change (2 ^ 0) with 1. rewrite Z.mul_1_r. apply Hint. lia.
    + assert (Hc52 : (c < 52)%positive) by lia.
      set (k := (52 - c)%positive).
      assert (Hk : Z.pos k = 52 - Z.pos c) by (unfold k; lia).
      assert (Hpm : pm = Pos.iter xO (Pos.iter xO pj k) c).
      { unfold pm. rewrite <- Pos.iter_add. f_equal. lia. }
      rewrite Hpm, shr_shl.
      cbn [shr_m loc_of_shr_record round_nearest_even].
      rewrite round_finish by (rewrite ?shl_digits; lia).
      unfold to_int64.
      replace (0 <=? -52 + Z.pos c) with false by (symmetry; lia).
      replace (- (-52 + Z.pos c)) with (Z.pos k) by lia.
      rewrite shl_value, Z.div_mul by (apply Z.pow_nonzero; lia).
      apply Hint. lia.
Qed.


Lemma digits_le_53 (p : positive) : Z.pos p < 2 ^ 53 -> D p <= 53.
Proof.
  intros Hlt. pose proof (digits_bounds p) as [Hlo _].
  destruct (Z_le_gt_dec (D p) 53) as [Hle | Hgt]; [exact Hle |].
  assert (2 ^ 53 <= 2 ^ (D p - 1)) by (apply Z.pow_le_mono_r; lia). lia.
Qed.

(** Every positive integer below [2 ^ 53] is a float: a mantissa of 53
    digits and an exponent that is not positive. *)
Lemma of_int_exact (p : positive) :
  Z.pos p < 2 ^ 53 ->
  exists (m : positive) (e : Z),
    of_int (Z.pos p) = S754_finite false m e /\
    D m = 53 /\ -52 <= e <= 0 /\ Z.pos m = Z.pos p * 2 ^ (- e).
Proof.
  intros Hlt. pose proof (digits_le_53 p Hlt) as Hd.
  destruct (53 - D p) as [| c | c] eqn:Hc; [| | lia].
  - exists p, 0. rewrite of_int_53 by lia.
    repeat split; try lia. 
  - exists (Pos.iter xO p c), (Z.neg c). rewrite (of_int_shl p c) by lia.
    split; [reflexivity |]. split; [rewrite shl_digits; lia |].
    split; [lia |]. rewrite shl_value. reflexivity.
Qed.

Lemma sub_one (mi : positive) (ei i : Z) :
  D mi = 53 -> -52 <= ei <= 0 -> Z.pos mi = i * 2 ^ (- ei) ->
  1 <= i < 2 ^ 53 ->
  to_int64 (sub (S754_finite false mi ei) one) = i - 1.
Proof.
  intros Hd He Hmi Hi. unfold sub, one, SFsub. cbn [cond_Zopp].
  replace (Z.min ei (-52)) with (-52) by lia.
  assert (Hal : Z.pos (fst (shl_align mi ei (-52))) = i * 4503599627370496).
  { unfold shl_align. destruct (-52 - ei) as [| d | d] eqn:Hd'; [| lia |].
    - cbn [fst]. rewrite Hmi. replace (- ei) with 52 by lia. reflexivity.
    - cbn [fst]. rewrite shl_value, Hmi, <- Z.mul_assoc, <- Z.pow_add_r by lia.
      replace (- ei + Z.pos d) with 52 by lia. reflexivity. }
  change (Z.pos (fst (shl_align 4503599627370496 (-52) (-52))))
    with 4503599627370496.
  rewrite Hal.
  destruct (Z.eq_dec i 1) as [-> | Hne].
  - reflexivity.
  - set (pj := Z.to_pos (i - 1)).
    assert (Hpj : Z.pos pj = i - 1) by (unfold pj; lia).
    replace (i * 4503599627370496 - 4503599627370496)
      with (Z.pos (Pos.iter xO pj 52))
      by (rewrite shl_value, Hpj; change (2 ^ 52) with 4503599627370496; lia).
    rewrite normalize_shl52; [exact Hpj |].
    apply digits_le_53. lia.
Qed.

Lemma ceil_div_3 (n : Z) : ceil_div n 3 = (n + 2) / 3.
Proof.
  unfold ceil_div.
  pose proof (Z.div_mod (- n) 3 ltac:(lia)) as H1.
  pose proof (Z.mod_pos_bound (- n) 3 ltac:(lia)) as H2.
  apply Z.div_unique with (2 - (- n) mod 3); lia.
Qed.

(** [New]'s computation of F is exact as long as [float64] holds the
    size exactly. *)
Lemma New_f_exact (n : Z) : 1 <= n <= 2 ^ 53 -> New_f n = ceil_div n 3 - 1.
Proof.
  intros Hn. rewrite ceil_div_3.
  destruct (Z.eq_dec n (2 ^ 53)) as [-> | Hne]; [vm_compute; reflexivity |].
  destruct n as [| p | p]; [lia | | lia].
  unfold New_f. rewrite of_int_3, of_int_1.
  destruct (of_int_exact p ltac:(lia)) as (m1 & e1 & -> & Hd1 & He1 & Hm1).
  rewrite (ceil_div_three (Z.pos p) (2 ^ (- e1)) m1 e1)
    by (assumption || lia || reflexivity).
  pose proof (Z.div_mod (Z.pos p + 2) 3 ltac:(lia)) as Hc.
  pose proof (Z.mod_pos_bound (Z.pos p + 2) 3 ltac:(lia)) as Ht.
  set (i := (Z.pos p + 2) / 3) in *.
  assert (Hi : 1 <= i < 2 ^ 53) by lia.
  destruct i as [| pi | pi] eqn:Hpi; [lia | | lia].
  destruct (of_int_exact pi ltac:(lia)) as (mi & ei & -> & Hdi & Hei & Hmi).
  apply sub_one; assumption.
Qed.

End Float64Facts.

(** ** [New] *)

Lemma New_N (b : Backend) : N (New b) = Z.of_nat (length (bk_Validators b)).
Proof. reflexivity. Qed.

Lemma New_F (b : Backend) : F (New b) = New_f (N (New b)).
Proof. reflexivity. Qed.

(** C6.  For a validator set of a size N between 1 and 2^53 + 4, the
    sizes that [float64] can tell apart, [New] builds a core whose field
    [N] is that size and whose field [F] is ceil(N/3) - 1 in integer
    arithmetic, the F of the validator set; for N = 3f + 1 it is f, and
    the quorum is 2f + 1. *)
Theorem New_N_F (b : Backend) :
  let n := Z.of_nat (length (bk_Validators b)) in
  1 <= n <= 2 ^ 53 + 4 ->
  N (New b) = n /\
  F (New b) = ceil_div n 3 - 1 /\
  F (New b) = vs_F (bk_Validators b) /\
  (forall f, n = 3 * f + 1 ->
             F (New b) = f /\ vs_Quorum (bk_Validators b) = 2 * f + 1).
Proof.
  intros n Hn.
  assert (HF : F (New b) = ceil_div n 3 - 1).
  { rewrite New_F, New_N. fold n.
    destruct (Z_le_gt_dec n (2 ^ 53)) as [Hle | Hgt].
    - apply Float64Facts.New_f_exact. lia.
    - assert (Hcases : n = 2 ^ 53 + 1 \/ n = 2 ^ 53 + 2 \/
                       n = 2 ^ 53 + 3 \/ n = 2 ^ 53 + 4) by lia.
      destruct Hcases as [-> | [-> | [-> | ->]]]; vm_compute; reflexivity. }
  split; [reflexivity |]. split; [exact HF |].
  split; [exact HF |].
  intros f Hf.
  assert (Hceil : ceil_div n 3 - 1 = f).
  { rewrite Float64Facts.ceil_div_3, Hf.
    replace (3 * f + 1 + 2) with ((f + 1) * 3) by lia.
    rewrite Z.div_mul by lia. lia. }
  split; [rewrite HF; exact Hceil |].
  unfold vs_Quorum, vs_F, vs_Size. fold n. rewrite Hceil. reflexivity.
Qed.

Lemma New_N_F_witness :
  1 <= Z.of_nat (length (bk_Validators backend4)) <= 2 ^ 53 + 4 /\
  N (New backend4) = 4 /\ F (New backend4) = 1 /\
  vs_Quorum (bk_Validators backend4) = 3.
Proof.
  assert (Hn : 1 <= Z.of_nat (length (bk_Validators backend4)) <= 2 ^ 53 + 4)
    by (vm_compute; split; discriminate).
  split; [exact Hn |].
  destruct (New_N_F backend4 Hn) as (HN & _ & _ & Hf).
  destruct (Hf 1 eq_refl) as [HF HQ].
  split; [exact HN |]. split; [exact HF | exact HQ].
Defined.

(** Beyond these sizes the F of [New] is not ceil(N/3) - 1 (C6 for every
    size): 2^53 + 5 is not a [float64], the conversion rounds it down to
    2^53 + 4, and F comes out one too small. *)
Lemma New_F_inexact :
  let b := backend_of_size (Z.to_nat (2 ^ 53 + 5)) in
  N (New b) = 9007199254740997 /\
  F (New b) = 3002399751580331 /\
  ceil_div (N (New b)) 3 - 1 = 3002399751580332.
Proof.
  intros b.
  assert (HN : N (New b) = 9007199254740997).
  { rewrite New_N. unfold b, backend_of_size. cbn [bk_Validators].
    rewrite length_map, length_seq. rewrite Z2Nat.id; [reflexivity |].
    vm_compute. discriminate. }
  split; [exact HN |]. rewrite New_F, HN.
  split; vm_compute; reflexivity.
Qed.

(** ** core.go: [setState], [commit], [broadcast] *)

Section CoreFacts.
Context {codec : Codec} {replay : Replay}.

Lemma setState_run (s : State) (w : world) :
  setState s w =
  Some (tt,
        if decide (state (w_core w) ≠ s) then
          let c1 := set_state s (w_core w) in
          mkWorld (fst (processBacklog c1))
                  (w_trace w
                   ++ CallProcessBacklog c1 :: snd (processBacklog c1))
        else w).
Proof.
  unfold setState, bind, get_core. simpl.
  destruct (decide (state (w_core w) ≠ s)) as [Hne | Heq]; [| reflexivity].
  unfold call_processBacklog, bind, get_core, modify_core, emit, emit_all.
  simpl. rewrite <- app_assoc. reflexivity.
Qed.

Lemma broadcast_run (code : Z) (msg : TypedMsg) (w : world) :
  broadcast code msg w =
  Some (tt,
        mkWorld (w_core w)
          (w_trace w ++
           [match Encode code msg with
            | Err err => Log LvlError "Failed to encode message" (Some err)
            | Ok m =>
                match ToPayload m with
                | Err err =>
                    Log LvlError "Failed to marshal message" (Some err)
                | Ok payload => Send payload
                end
            end])).
Proof.
  unfold broadcast.
  destruct (Encode code msg) as [m | e]; [| reflexivity].
  destruct (ToPayload m) as [p | e]; reflexivity.
Qed.

(** C7.  A call of [setState] with a state different from the core's
    sets the state field to it and then invokes [processBacklog], once,
    on the core that holds the new state; with a replay that keeps to the
    backlog, the state is the new one when [setState] returns and the
    trace shows exactly one invocation.  A call with the core's own state
    changes nothing and invokes nothing. *)
Theorem setState_replays_once (s : State) (w : world) :
  (state (w_core w) ≠ s ->
   let c1 := set_state s (w_core w) in
   setState s w =
     Some (tt, mkWorld (fst (processBacklog c1))
                 (w_trace w ++ CallProcessBacklog c1 :: snd (processBacklog c1)))
   /\ state c1 = s
   /\ (ReplayFrame replay ->
       state (fst (processBacklog c1)) = s /\
       processBacklog_calls (CallProcessBacklog c1 :: snd (processBacklog c1))
       = 1%nat)) /\
  (state (w_core w) = s -> setState s w = Some (tt, w)).
Proof.
  rewrite setState_run. split; intros Hs.
  - destruct (decide (state (w_core w) ≠ s)) as [_ | Hc]; [| contradiction].
    cbv zeta. split; [reflexivity |]. split; [reflexivity |].
    intros frame.
    rewrite processBacklog_core. split; [reflexivity |].
    destruct (backlog_posts_only _
                (processBacklog_posts (set_state s (w_core w))))
      as (_ & Hcalls & _).
    unfold processBacklog_calls in *. simpl. rewrite Hcalls. reflexivity.
  - destruct (decide (state (w_core w) ≠ s)) as [Hc | _];
      [contradiction | reflexivity].
Qed.

Context {frame : ReplayFrame replay}.

(** [processBacklog] leaves every field but [backlogs] as it is. *)
Lemma replay_fields (c : core) :
  let c' := fst (processBacklog c) in
  state c' = state c /\ current c' = current c /\
  snapshots c' = snapshots c /\ sequence c' = sequence c /\
  viewNumber c' = viewNumber c /\ completed c' = completed c /\
  backend c' = backend c.
Proof.
  intros c'. unfold c'. rewrite processBacklog_core. simpl. repeat split.
Qed.

(** The whole run of [commit], step by step. *)
Lemma commit_run (w : world) (cur : snapshot) (pp : Preprepare) (n : Z) :
  current (w_core w) = Some cur ->
  snap_Preprepare cur = Some pp ->
  snap_Sequence cur = Some n ->
  let c := w_core w in
  let w1 := if decide (state c ≠ StateCommitted) then
              mkWorld (fst (processBacklog (set_state StateCommitted c)))
                      (w_trace w ++
                       CallProcessBacklog (set_state StateCommitted c)
                       :: snd (processBacklog (set_state StateCommitted c)))
            else w in
  let c2 := set_state StateAcceptRequest
              (set_completed true
                 (set_sequence (Some n)
                    (set_viewNumber (snap_ViewNumber cur)
                       (set_snapshots (snapshots c ++ [cur])
                                      (w_core w1))))) in
  commit w =
  Some (tt,
        mkWorld (fst (processBacklog c2))
                (w_trace w1
                 ++ [Log LvlDebug "Ready to commit" None;
                     BackendCommit (w_core w1) (pp_Proposal pp)]
                 ++ CallProcessBacklog c2 :: snd (processBacklog c2)
                 ++ (if decide (n mod 100 = 0)
                     then [GoPost buildCheckpointEvent] else []))).
Proof.
  intros Hcur Hpp Hn. cbv zeta.
  unfold commit. unfold bind at 1. rewrite setState_run. cbv zeta.
  set (w1 := if decide (state (w_core w) ≠ StateCommitted) then _ else w).
  assert (Hw1 : current (w_core w1) = Some cur /\
                state (w_core w1) = StateCommitted /\
                snapshots (w_core w1) = snapshots (w_core w)).
  { unfold w1.
    destruct (decide (state (w_core w) ≠ StateCommitted)) as [Hne | Heq].
    - simpl. destruct (replay_fields (set_state StateCommitted (w_core w)))
        as (-> & -> & -> & _). simpl. auto.
    - split; [exact Hcur |]. split; [| reflexivity].
      destruct (decide (state (w_core w) = StateCommitted));
        [assumption | contradiction]. }
  destruct Hw1 as (Hcur1 & Hst1 & Hsn1).
  clearbody w1. destruct w1 as [c1 t1]. simpl in *.
  repeat first [ mstep | rewrite Hcur1 | rewrite Hpp ].
  unfold bind at 1. rewrite setState_run. simpl. rewrite Hst1.
  destruct (decide (StateCommitted ≠ StateAcceptRequest)) as [_ | Hc];
    [| exfalso; apply Hc; discriminate].
  rewrite Hn, Hsn1.
  set (c2 := set_state _ _).
  destruct (replay_fields c2) as (_ & _ & _ & Hseq & _).
  mstep. rewrite Hseq. simpl. mstep.
  destruct (decide (n mod 100 = 0)); unfold emit, ret; simpl;
    repeat rewrite <- app_assoc; simpl; try rewrite app_nil_r; reflexivity.
Qed.


(** What [commit] leaves and the order of its calls: [c1] is the core
    at the call of [Backend.Commit], [c2] the core at the last replay. *)
Lemma commit_shape (w : world) (cur : snapshot) (pp : Preprepare) (n : Z) :
  current (w_core w) = Some cur ->
  snap_Preprepare cur = Some pp ->
  snap_Sequence cur = Some n ->
  exists w' t1 c1 c2 t2,
    commit w = Some (tt, w') /\
    state (w_core w') = StateAcceptRequest /\
    completed (w_core w') = true /\
    snapshots (w_core w') = snapshots (w_core w) ++ [cur] /\
    sequence (w_core w') = snap_Sequence cur /\
    viewNumber (w_core w') = snap_ViewNumber cur /\
    w_trace w' =
      w_trace w ++ t1
      ++ [Log LvlDebug "Ready to commit" None;
          BackendCommit c1 (pp_Proposal pp)]
      ++ CallProcessBacklog c2 :: t2
      ++ (if decide (n mod 100 = 0)
          then [GoPost buildCheckpointEvent] else []) /\
    (state (w_core w) = StateCommitted /\ t1 = [] \/
     exists r1,
       t1 = CallProcessBacklog (set_state StateCommitted (w_core w)) :: r1 /\
       forallb is_backlog_post r1 = true) /\
    state c2 = StateAcceptRequest /\
    completed c2 = true /\
    snapshots c2 = snapshots (w_core w) ++ [cur] /\
    sequence c2 = snap_Sequence cur /\
    viewNumber c2 = snap_ViewNumber cur /\
    forallb is_backlog_post t2 = true /\
    state c1 = StateCommitted /\
    current c1 = Some cur /\
    snapshots c1 = snapshots (w_core w) /\
    sequence c1 = sequence (w_core w) /\
    viewNumber c1 = viewNumber (w_core w) /\
    completed c1 = completed (w_core w).
Proof.
  intros Hcur Hpp Hn.
  pose proof (commit_run w cur pp n Hcur Hpp Hn) as Hrun. cbv zeta in Hrun.
  set (w1 := if decide (state (w_core w) ≠ StateCommitted) then _ else w)
    in Hrun.
  set (c2 := set_state StateAcceptRequest _) in Hrun.
  exists (mkWorld (fst (processBacklog c2))
            (w_trace w1
             ++ [Log LvlDebug "Ready to commit" None;
                 BackendCommit (w_core w1) (pp_Proposal pp)]
             ++ CallProcessBacklog c2 :: snd (processBacklog c2)
             ++ (if decide (n mod 100 = 0)
                 then [GoPost buildCheckpointEvent] else []))).
  exists (if decide (state (w_core w) ≠ StateCommitted)
          then CallProcessBacklog (set_state StateCommitted (w_core w))
               :: snd (processBacklog (set_state StateCommitted (w_core w)))
          else []).
  exists (w_core w1), c2, (snd (processBacklog c2)).
  split; [exact Hrun |]. simpl.
  destruct (replay_fields c2) as (-> & _ & -> & -> & -> & -> & _).
  assert (Hw1 : state (w_core w1) = StateCommitted /\
                current (w_core w1) = Some cur /\
                snapshots (w_core w1) = snapshots (w_core w) /\
                sequence (w_core w1) = sequence (w_core w) /\
                viewNumber (w_core w1) = viewNumber (w_core w) /\
                completed (w_core w1) = completed (w_core w)).
  { unfold w1.
    destruct (decide (state (w_core w) ≠ StateCommitted)) as [Hne | Heq].
    - simpl. destruct (replay_fields (set_state StateCommitted (w_core w)))
        as (-> & -> & -> & -> & -> & -> & _). simpl. auto 7.
    - assert (Hs : state (w_core w) = StateCommitted).
      { destruct (decide (state (w_core w) = StateCommitted));
          [assumption | contradiction]. }
      repeat split; first [exact Hs | exact Hcur | reflexivity]. }
  destruct Hw1 as (Hst1 & Hcur1 & Hsn1 & Hsq1 & Hvn1 & Hco1).
  unfold c2. simpl. rewrite Hn.
  repeat (split; [reflexivity |]).
  split.
  { unfold w1. destruct (decide (state (w_core w) ≠ StateCommitted));
      simpl; [rewrite <- app_assoc |]; reflexivity. }
  split.
  { destruct (decide (state (w_core w) ≠ StateCommitted)) as [Hne | Heq].
    - right. eexists. split; [reflexivity |]. apply processBacklog_posts.
    - left. split; [| reflexivity].
      destruct (decide (state (w_core w) = StateCommitted));
        [assumption | contradiction]. }
  repeat (split; [reflexivity |]).
  split; [apply processBacklog_posts |].
  repeat (split; [assumption |]). assumption.
Qed.

(** C5.  [commit] sets the state to Committed (the replay that this
    state change triggers sees the core in state Committed and otherwise
    as it was), then calls [Backend.Commit] with the proposal of the
    accepted Preprepare: at that call the state is Committed, and the
    snapshot history, the sequence, the view number and the completion
    flag are still those from before [commit].  After the call it
    appends the current round to the snapshot history, takes over its
    view number and sequence and sets the completion flag (the replay of
    the last state change sees all of them), and finally sets the state
    to AcceptRequest.  After it returns, the state is AcceptRequest,
    [completed] is true, the history has grown by the committed round
    alone, and [sequence] and [viewNumber] are those of the committed
    round. *)
Theorem commit_steps (w : world) (cur : snapshot) (pp : Preprepare) (n : Z) :
  current (w_core w) = Some cur ->
  snap_Preprepare cur = Some pp ->
  snap_Sequence cur = Some n ->
  exists w' t1 c1 c2 t2 t3,
    commit w = Some (tt, w') /\
    state (w_core w') = StateAcceptRequest /\
    completed (w_core w') = true /\
    snapshots (w_core w') = snapshots (w_core w) ++ [cur] /\
    sequence (w_core w') = snap_Sequence cur /\
    viewNumber (w_core w') = snap_ViewNumber cur /\
    w_trace w' =
      w_trace w ++ t1
      ++ [Log LvlDebug "Ready to commit" None;
          BackendCommit c1 (pp_Proposal pp)]
      ++ CallProcessBacklog c2 :: t2 ++ t3 /\
    (state (w_core w) = StateCommitted /\ t1 = [] \/
     exists r1,
       t1 = CallProcessBacklog (set_state StateCommitted (w_core w)) :: r1 /\
       forallb is_backlog_post r1 = true) /\
    state c1 = StateCommitted /\
    current c1 = Some cur /\
    snapshots c1 = snapshots (w_core w) /\
    sequence c1 = sequence (w_core w) /\
    viewNumber c1 = viewNumber (w_core w) /\
    completed c1 = completed (w_core w) /\
    state c2 = StateAcceptRequest /\
    completed c2 = true /\
    snapshots c2 = snapshots (w_core w) ++ [cur] /\
    sequence c2 = snap_Sequence cur /\
    viewNumber c2 = snap_ViewNumber cur /\
    forallb is_backlog_post t2 = true /\
    (t3 = [] \/ t3 = [GoPost buildCheckpointEvent]).
Proof.
  intros Hcur Hpp Hn.
  destruct (commit_shape w cur pp n Hcur Hpp Hn)
    as (w' & t1 & c1 & c2 & t2 & Hrun & Hst & Hco & Hsn & Hsq & Hvn & Htr
        & Ht1 & Hst2 & Hco2 & Hsn2 & Hsq2 & Hvn2 & Ht2
        & Hst1 & Hcur1 & Hsn1 & Hsq1 & Hvn1 & Hco1).
  exists w', t1, c1, c2, t2,
    (if decide (n mod 100 = 0) then [GoPost buildCheckpointEvent] else []).
  repeat (split; [assumption |]).
  destruct (decide (n mod 100 = 0)); auto.
Qed.

(** C2.  [commit] posts a [buildCheckpointEvent] exactly once when the
    sequence it has just committed is divisible by 100, and not at all
    otherwise.  The post is made from a goroutine of its own, as the
    last step, after all updates of the commit path, which are the same
    whether a checkpoint is requested or not. *)
Theorem commit_checkpoint_trigger
    (w : world) (cur : snapshot) (pp : Preprepare) (n : Z) :
  current (w_core w) = Some cur ->
  snap_Preprepare cur = Some pp ->
  snap_Sequence cur = Some n ->
  exists w' t0,
    commit w = Some (tt, w') /\
    checkpoint_posts t0 = 0%nat /\
    ((100 | n) ->
     w_trace w' = w_trace w ++ t0 ++ [GoPost buildCheckpointEvent] /\
     checkpoint_posts (t0 ++ [GoPost buildCheckpointEvent]) = 1%nat /\
     async_checkpoint_posts (t0 ++ [GoPost buildCheckpointEvent]) = 1%nat) /\
    (~ (100 | n) -> w_trace w' = w_trace w ++ t0) /\
    state (w_core w') = StateAcceptRequest /\
    completed (w_core w') = true /\
    sequence (w_core w') = Some n /\
    viewNumber (w_core w') = snap_ViewNumber cur /\
    snapshots (w_core w') = snapshots (w_core w) ++ [cur].
Proof.
  intros Hcur Hpp Hn.
  destruct (commit_shape w cur pp n Hcur Hpp Hn)
    as (w' & t1 & c1 & c2 & t2 & Hrun & Hst & Hco & Hsn & Hsq & Hvn & Htr
        & Ht1 & _ & _ & _ & _ & _ & Ht2 & _).
  set (t0 := t1 ++ [Log LvlDebug "Ready to commit" None;
                    BackendCommit c1 (pp_Proposal pp)]
             ++ CallProcessBacklog c2 :: t2).
  assert (Hmod : n mod 100 = 0 <-> (100 | n)) by (apply Z.mod_divide; lia).
  assert (H1 : checkpoint_posts t1 = 0%nat /\
               async_checkpoint_posts t1 = 0%nat).
  { destruct Ht1 as [[_ ->] | (r1 & -> & Hr1)]; [split; reflexivity |].
    destruct (backlog_posts_only r1 Hr1) as (_ & _ & H3 & H4).
    unfold checkpoint_posts, async_checkpoint_posts in *. simpl. auto. }
  destruct H1 as [H1 H1'].
  destruct (backlog_posts_only t2 Ht2) as (_ & _ & H2 & H2').
  assert (H0 : checkpoint_posts t0 = 0%nat /\
               async_checkpoint_posts t0 = 0%nat).
  { unfold t0.
    change ([Log LvlDebug "Ready to commit" None;
             BackendCommit c1 (pp_Proposal pp)]
            ++ CallProcessBacklog c2 :: t2)
      with ([Log LvlDebug "Ready to commit" None;
             BackendCommit c1 (pp_Proposal pp); CallProcessBacklog c2]
            ++ t2).
    rewrite !checkpoint_posts_app, !async_checkpoint_posts_app.
    rewrite H1, H1', H2, H2'. split; reflexivity. }
  destruct H0 as [H0 H0'].
  assert (Htr' : w_trace w' = w_trace w ++ t0
                 ++ (if decide (n mod 100 = 0)
                     then [GoPost buildCheckpointEvent] else [])).
  { rewrite Htr. unfold t0. simpl. rewrite <- !app_assoc. reflexivity. }
  exists w', t0.
  split; [exact Hrun |]. split; [exact H0 |].
  split.
  { intros Hdiv. apply Hmod in Hdiv.
    destruct (decide (n mod 100 = 0)); [| contradiction].
    split; [exact Htr' |].
    rewrite checkpoint_posts_app, async_checkpoint_posts_app, H0, H0'.
    split; reflexivity. }
  split.
  { intros Hndiv.
    destruct (decide (n mod 100 = 0)) as [Hz | _];
      [apply Hmod in Hz; contradiction |].
    rewrite Htr', app_nil_r. reflexivity. }
  rewrite Hsq, Hn. repeat split; assumption.
Qed.

(** C8.  When the encoding of the message fails, in [pbft.Encode] or in
    [ToPayload], [broadcast] does not call [Backend.Send] and leaves
    every field of the core as it is; it logs the error itself, at level
    Error, and hands nothing back to its caller. *)
Theorem broadcast_encoding_failure
    (code : Z) (msg : TypedMsg) (err : Error) (w : world) :
  (Encode code msg = Err err \/
   exists m, Encode code msg = Ok m /\ ToPayload m = Err err) ->
  exists text,
    broadcast code msg w =
      Some (tt, mkWorld (w_core w)
                  (w_trace w ++ [Log LvlError text (Some err)])) /\
    sentMsgs (w_trace w ++ [Log LvlError text (Some err)])
    = sentMsgs (w_trace w).
Proof.
  intros Hfail. rewrite broadcast_run.
  destruct Hfail as [-> | (m & -> & ->)]; eexists;
    (split; [reflexivity |]);
    rewrite sentMsgs_app; simpl; apply app_nil_r.
Qed.

End CoreFacts.

(** ** Prepare handling *)

Lemma Push_perm (e : backlogEntry) (q : list backlogEntry) :
  Push e q ≡ₚ e :: q.
Proof.
  induction q as [| x q IH]; [reflexivity |].
  simpl. destruct (view_leb (be_view x) (be_view e)); [| reflexivity].
  rewrite IH. apply Permutation_swap.
Qed.

Section HandlerFacts.
  Context {codec : Codec} {replay : Replay}.

Lemma verifyPrepare_run (prepare : Subject) (src : Z) (w : world)
    (cur : snapshot) :
  current (w_core w) = Some cur ->
  verifyPrepare prepare src w =
  Some (if decide (Some prepare = snap_Subject cur) then None
        else Some errInconsistentSubject, w).
Proof.
  intros Hcur. unfold verifyPrepare. mstep. rewrite Hcur. mstep.
  destruct (decide (Some prepare = snap_Subject cur)); reflexivity.
Qed.

(** C3.  [verifyPrepare] rejects with [errInconsistentSubject] every
    vote whose subject differs from the current subject: when the digest
    differs, when the vote's sequence is nil, when the view number
    matches and the sequence differs, when the sequence matches and the
    view number differs.  It accepts the vote whose subject equals the
    current one.  It changes nothing, and [handlePrepare] hands the
    rejection on with the prepare tally, and everything else, as it
    was. *)
Theorem verifyPrepare_subject
    (w : world) (cur : snapshot) (sub prepare : Subject) (src : Z) :
  current (w_core w) = Some cur ->
  snap_Subject cur = Some sub ->
  let rejected :=
    verifyPrepare prepare src w = Some (Some errInconsistentSubject, w) in
  (prepare ≠ sub -> rejected) /\
  (Digest prepare ≠ Digest sub -> rejected) /\
  (Sequence (sub_View prepare) = None ->
   is_Some (Sequence (sub_View sub)) -> rejected) /\
  (ViewNumber (sub_View prepare) = ViewNumber (sub_View sub) ->
   Sequence (sub_View prepare) ≠ Sequence (sub_View sub) -> rejected) /\
  (Sequence (sub_View prepare) = Sequence (sub_View sub) ->
   ViewNumber (sub_View prepare) ≠ ViewNumber (sub_View sub) -> rejected) /\
  (prepare = sub -> verifyPrepare prepare src w = Some (None, w)) /\
  (forall msg,
     Decode msg = Ok (MsgSubject prepare) ->
     checkMessage msgPrepare (state (w_core w)) cur (sub_View prepare) = None ->
     prepare ≠ sub ->
     handlePrepare msg src w = Some (Some errInconsistentSubject, w)).
Proof.
  intros Hcur Hsub rejected.
  assert (Hne : prepare ≠ sub -> rejected).
  { intros Hd. unfold rejected.
    rewrite (verifyPrepare_run _ _ _ cur Hcur), Hsub.
    destruct (decide (Some prepare = Some sub)) as [Heq | _]; [| reflexivity].
    congruence. }
  split; [exact Hne |].
  split; [intros Hd; apply Hne; congruence |].
  split; [intros Hnil [sq Hsq]; apply Hne; congruence |].
  split; [intros _ Hd; apply Hne; congruence |].
  split; [intros _ Hd; apply Hne; congruence |].
  split.
  - intros ->. rewrite (verifyPrepare_run _ _ _ cur Hcur), Hsub.
    destruct (decide (Some sub = Some sub)); [reflexivity | congruence].
  - intros msg Hdec Hchk Hd. unfold handlePrepare. rewrite Hdec.
    mstep. rewrite Hcur. mstep. rewrite Hchk.
    unfold bind at 1. rewrite (Hne Hd). reflexivity.
Qed.

(** C4.  [handlePrepare] answers a vote for a view below the current one
    with [errOldMessage] and changes nothing; it answers a vote for a
    view above the current one with [errFutureMessage] and adds the
    message to the sender's backlog queue, leaving the state, the current
    round with its vote sets and the trace as they were. *)
Theorem handlePrepare_old_future
    (msg : Message) (src : Z) (prepare : Subject) (w : world)
    (cur : snapshot) :
  Decode msg = Ok (MsgSubject prepare) ->
  current (w_core w) = Some cur ->
  (View_Cmp (sub_View prepare) (snap_View cur) = Some Lt ->
   handlePrepare msg src w = Some (Some errOldMessage, w)) /\
  (View_Cmp (sub_View prepare) (snap_View cur) = Some Gt ->
   exists w' q,
     handlePrepare msg src w = Some (Some errFutureMessage, w') /\
     backlogs (w_core w') = <[src := q]> (backlogs (w_core w)) /\
     q ≡ₚ {| be_view := sub_View prepare; be_msg := msg |}
          :: default [] (backlogs (w_core w) !! src) /\
     state (w_core w') = state (w_core w) /\
     current (w_core w') = current (w_core w) /\
     w_core w' = set_backlogs (backlogs (w_core w')) (w_core w) /\
     w_trace w' = w_trace w).
Proof.
  intros Hdec Hcur. split; intros Hcmp.
  - unfold handlePrepare. rewrite Hdec. mstep. rewrite Hcur. mstep.
    unfold checkMessage. rewrite Hcmp. reflexivity.
  - unfold handlePrepare. rewrite Hdec. mstep. rewrite Hcur. mstep.
    unfold checkMessage. rewrite Hcmp. unfold storeBacklog. mstep.
    eexists _, _. split; [reflexivity |]. simpl.
    split; [reflexivity |]. split; [apply Push_perm |].
    repeat split; auto.
Qed.

Context {claws : CodecLaws codec} {frame : ReplayFrame replay}.

(** An admissible vote of a validator for the current subject. *)
Lemma handlePrepare_admit
    (w : world) (cur : snapshot) (sub : Subject) (msg : Message) (src : Z) :
  current (w_core w) = Some cur ->
  snap_Subject cur = Some sub ->
  sub_View sub = snap_View cur ->
  View_Cmp (snap_View cur) (snap_View cur) = Some Eq ->
  state (w_core w) = StatePreprepared \/ state (w_core w) = StatePrepared ->
  Decode msg = Ok (MsgSubject sub) ->
  src ∈ bk_Validators (backend (w_core w)) ->
  let vs := bk_Validators (backend (w_core w)) in
  let cur' := set_Prepares (<[src := sub]> (Prepares cur)) cur in
  let w1 := mkWorld (set_current (Some cur') (w_core w)) (w_trace w) in
  handlePrepare msg src w =
  if negb (PreparedQuorumReached vs cur) && PreparedQuorumReached vs cur'
     && bool_decide (state (w_core w) = StatePreprepared)
  then (broadcast msgCommit (MsgSubject sub) ;;
        setState StatePrepared ;; ret None) w1
  else Some (None, w1).
Proof.
  intros Hcur Hsub Hview Hcmp Hst Hdec Hmem. cbv zeta.
  unfold handlePrepare. rewrite Hdec. mstep. rewrite Hcur. mstep.
  assert (Hchk : checkMessage msgPrepare (state (w_core w)) cur (sub_View sub)
                 = None).
  { unfold checkMessage. rewrite Hview, Hcmp. simpl.
    destruct Hst as [-> | ->]; reflexivity. }
  rewrite Hchk. unfold bind at 1.
  rewrite (verifyPrepare_run _ _ _ cur Hcur), Hsub.
  destruct (decide (Some sub = Some sub)) as [_ | Hc]; [| congruence].
  unfold vs_IsMember. rewrite bool_decide_eq_true_2 by exact Hmem. simpl.
  unfold AddPrepare.
  destruct (decide (sub_View sub = snap_View cur)) as [_ | Hc];
    [| contradiction].
  simpl. mstep.
  destruct (negb _ && _ && _); reflexivity.
Qed.

(** Votes of distinct validators that have not voted yet, from any
    tally on. *)
Lemma handlePrepares_run (sub : Subject) (votes : list (Message * Z)) :
  forall (w : world) (cur : snapshot),
  let vs := bk_Validators (backend (w_core w)) in
  let k0 := Z.of_nat (size (Prepares cur)) in
  let k1 := k0 + Z.of_nat (length votes) in
  current (w_core w) = Some cur ->
  snap_Subject cur = Some sub ->
  sub_View sub = snap_View cur ->
  View_Cmp (snap_View cur) (snap_View cur) = Some Eq ->
  (k0 < vs_Quorum vs -> state (w_core w) = StatePreprepared) ->
  (vs_Quorum vs <= k0 -> state (w_core w) = StatePrepared) ->
  NoDup (votes.*2) ->
  (forall msg src, (msg, src) ∈ votes ->
     src ∈ vs /\ Decode msg = Ok (MsgSubject sub) /\
     Prepares cur !! src = None) ->
  exists w' cur',
    handlePrepares votes w = Some (None, w') /\
    current (w_core w') = Some cur' /\
    Z.of_nat (size (Prepares cur')) = k1 /\
    (k1 < vs_Quorum vs ->
     state (w_core w') = StatePreprepared /\
     sentMsgs (w_trace w') = sentMsgs (w_trace w)) /\
    (vs_Quorum vs <= k0 ->
     state (w_core w') = StatePrepared /\
     sentMsgs (w_trace w') = sentMsgs (w_trace w)) /\
    (k0 < vs_Quorum vs <= k1 ->
     state (w_core w') = StatePrepared /\
     exists payload m,
       sentMsgs (w_trace w') = sentMsgs (w_trace w) ++ [payload] /\
       FromPayload payload = Ok m /\ Code m = msgCommit /\
       Decode m = Ok (MsgSubject sub)).
Proof.
  induction votes as [| [msg src] rest IH]; intros w cur vs k0 k1
    Hcur Hsub Hview Hcmp Hlow Hhigh Hnd Hvotes.
  - exists w, cur. simpl. unfold k1, k0 in *. simpl.
    split; [reflexivity |]. split; [exact Hcur |]. split; [lia |].
    split; [intros H; split; [apply Hlow; lia | reflexivity] |].
    split; [intros H; split; [apply Hhigh; lia | reflexivity] |].
    intros H. lia.
  - destruct (Hvotes msg src) as (Hmem & Hdec & Hnew); [left |].
    assert (Hst : state (w_core w) = StatePreprepared \/
                  state (w_core w) = StatePrepared).
    { destruct (Z_lt_le_dec k0 (vs_Quorum vs)); auto. }
    simpl handlePrepares. unfold bind at 1.
    rewrite (handlePrepare_admit w cur sub msg src Hcur Hsub Hview Hcmp Hst
               Hdec Hmem).
    fold vs.
    set (cur' := set_Prepares (<[src := sub]> (Prepares cur)) cur).
    assert (Hsize : Z.of_nat (size (Prepares cur')) = k0 + 1).
    { unfold cur', k0. simpl. rewrite map_size_insert_None by exact Hnew. lia. }
    assert (Hrest : forall msg' src', (msg', src') ∈ rest ->
              src' ∈ vs /\ Decode msg' = Ok (MsgSubject sub) /\
              Prepares cur' !! src' = None).
    { intros msg' src' Hin.
      destruct (Hvotes msg' src') as (H1 & H2 & H3); [right; exact Hin |].
      split; [exact H1 |]. split; [exact H2 |].
      unfold cur'. simpl. rewrite lookup_insert_ne; [exact H3 |].
      intros ->. simpl in Hnd. apply NoDup_cons in Hnd as [Hnin _].
      apply Hnin. change src' with (snd (msg', src')).
      apply list_elem_of_fmap_2. exact Hin. }
    assert (Hnd' : NoDup (rest.*2)).
    { simpl in Hnd. apply NoDup_cons in Hnd as [_ Hnd]. exact Hnd. }
    unfold PreparedQuorumReached at 1 2. rewrite Hsize. fold k0.
    assert (Hlen : k1 = k0 + 1 + Z.of_nat (length rest)).
    { unfold k1. simpl length. lia. }
    assert (Hsub' : snap_Subject cur' = Some sub) by exact Hsub.
    assert (Hview' : sub_View sub = snap_View cur') by exact Hview.
    assert (Hcmp' : View_Cmp (snap_View cur') (snap_View cur') = Some Eq)
      by exact Hcmp.
    set (w1 := mkWorld (set_current (Some cur') (w_core w)) (w_trace w)).
    destruct (Z_lt_le_dec k0 (vs_Quorum vs)) as [Hlt | Hge];
      [destruct (Z_lt_le_dec (k0 + 1) (vs_Quorum vs)) as [Hlt1 | Hge1] |].
    + (* still below the quorum *)
      replace (vs_Quorum vs <=? k0 + 1) with false by (symmetry; lia).
      rewrite andb_false_r. simpl.
      assert (Hlow1 : Z.of_nat (size (Prepares cur')) < vs_Quorum vs ->
                      state (w_core w1) = StatePreprepared)
        by (intros _; apply Hlow; exact Hlt).
      assert (Hhigh1 : vs_Quorum vs <= Z.of_nat (size (Prepares cur')) ->
                       state (w_core w1) = StatePrepared) by lia.
      destruct (IH w1 cur' eq_refl Hsub' Hview' Hcmp' Hlow1 Hhigh1 Hnd' Hrest)
        as (w' & cur'' & Hrun & Hc' & Hs' & Ha & Hb & Hc).
      exists w', cur''. rewrite Hrun. split; [reflexivity |].
      split; [exact Hc' |]. rewrite Hsize in *. simpl in Ha, Hb, Hc.
      fold vs in Ha, Hb, Hc.
      split; [lia |]. split; [intros; apply Ha; lia |].
      split; [intros; lia |]. intros; apply Hc; lia.
    + (* this vote completes the quorum *)
      replace (vs_Quorum vs <=? k0) with false by (symmetry; lia).
      replace (vs_Quorum vs <=? k0 + 1) with true by (symmetry; lia).
      rewrite (Hlow Hlt). rewrite bool_decide_eq_true_2 by reflexivity. simpl.
      destruct (Subject_roundtrip msgCommit sub)
        as (m & payload & Henc & Hpay & m' & Hfrom & Hcode & Hdecode).
      unfold bind at 1. rewrite broadcast_run, Henc, Hpay.
      unfold bind at 1. rewrite setState_run. unfold w1. simpl.
      rewrite (Hlow Hlt).
      destruct (decide (StatePreprepared ≠ StatePrepared)) as [_ | Hc];
        [| exfalso; apply Hc; discriminate].
      unfold ret.
      set (c1 := set_state StatePrepared (set_current (Some cur') (w_core w))).
      set (w2 := mkWorld _ _).
      destruct (replay_fields c1) as (Hst2 & Hcur2 & _ & _ & _ & _ & Hbk2).
      assert (Hvs2 : bk_Validators (backend (w_core w2)) = vs)
        by (unfold w2; simpl; rewrite Hbk2; reflexivity).
      assert (Hcur2' : current (w_core w2) = Some cur')
        by (unfold w2; simpl; rewrite Hcur2; reflexivity).
      assert (Hst2' : state (w_core w2) = StatePrepared)
        by (unfold w2; simpl; rewrite Hst2; reflexivity).
      pose proof (IH w2 cur') as IH2. cbv zeta in IH2. rewrite Hvs2 in IH2.
      destruct (IH2 Hcur2' Hsub' Hview' Hcmp')
        as (w' & cur'' & Hrun & Hc' & Hs' & Ha & Hb & Hc);
        [lia | intros _; exact Hst2' | exact Hnd' | exact Hrest |].
      exists w', cur''. rewrite Hrun. split; [reflexivity |].
      split; [exact Hc' |]. rewrite Hsize in *.
      split; [lia |]. split; [intros; lia |]. split; [intros; lia |].
      intros _. destruct Hb as [Hb1 Hb2]; [lia |].
      split; [exact Hb1 |]. exists payload, m'.
      split; [| auto].
      rewrite Hb2. unfold w2. simpl. rewrite !sentMsgs_app.
      destruct (backlog_posts_only _ (processBacklog_posts c1)) as (Hs0 & _).
      change (sentMsgs (CallProcessBacklog c1 :: snd (processBacklog c1)))
        with (sentMsgs (snd (processBacklog c1))).
      rewrite Hs0, app_nil_r. reflexivity.
    + (* the quorum was reached before *)
      replace (vs_Quorum vs <=? k0) with true by (symmetry; lia). simpl.
      assert (Hlow1 : Z.of_nat (size (Prepares cur')) < vs_Quorum vs ->
                      state (w_core w1) = StatePreprepared) by lia.
      assert (Hhigh1 : vs_Quorum vs <= Z.of_nat (size (Prepares cur')) ->
                       state (w_core w1) = StatePrepared)
        by (intros _; apply Hhigh; exact Hge).
      destruct (IH w1 cur' eq_refl Hsub' Hview' Hcmp' Hlow1 Hhigh1 Hnd' Hrest)
        as (w' & cur'' & Hrun & Hc' & Hs' & Ha & Hb & Hc).
      exists w', cur''. rewrite Hrun. split; [reflexivity |].
      split; [exact Hc' |]. rewrite Hsize in *. simpl in Ha, Hb, Hc.
      fold vs in Ha, Hb, Hc.
      split; [lia |]. split; [intros; lia |].
      split; [intros; apply Hb; lia |]. intros; lia.
Qed.

Lemma View_Cmp_refl (v : View) :
  is_Some (ViewNumber v) -> is_Some (Sequence v) -> View_Cmp v v = Some Eq.
Proof.
  intros [vn Hvn] [sq Hsq]. unfold View_Cmp. rewrite Hvn, Hsq.
  rewrite !Z.compare_refl. reflexivity.
Qed.

(** C1.  A core in state Preprepared with an accepted Preprepare, whose
    prepare tally is below the quorum 2F+1, handles Prepare votes for the
    current subject from distinct validators that have not voted yet.
    While the tally stays below 2F+1 the state stays Preprepared and
    nothing is sent; once it has reached 2F+1 the state is Prepared and
    exactly one message was handed to [Backend.Send]: a Commit whose
    decoded payload is the current subject.  As this holds for every list
    of votes, hence for every prefix of one, the state changes at the
    vote that makes the count 2F+1. *)
Theorem handlePrepare_quorum
    (w : world) (cur : snapshot) (sub : Subject)
    (votes : list (Message * Z)) :
  let vs := bk_Validators (backend (w_core w)) in
  let count := Z.of_nat (size (Prepares cur)) + Z.of_nat (length votes) in
  state (w_core w) = StatePreprepared ->
  current (w_core w) = Some cur ->
  snap_Subject cur = Some sub ->
  sub_View sub = snap_View cur ->
  is_Some (snap_ViewNumber cur) ->
  is_Some (snap_Sequence cur) ->
  Z.of_nat (size (Prepares cur)) < 2 * vs_F vs + 1 ->
  NoDup (votes.*2) ->
  Forall (fun v => v.2 ∈ vs /\ Prepares cur !! v.2 = None /\
                   Decode v.1 = Ok (MsgSubject sub)) votes ->
  exists w' cur',
    handlePrepares votes w = Some (None, w') /\
    current (w_core w') = Some cur' /\
    Z.of_nat (size (Prepares cur')) = count /\
    (count < 2 * vs_F vs + 1 ->
     state (w_core w') = StatePreprepared /\
     sentMsgs (w_trace w') = sentMsgs (w_trace w)) /\
    (2 * vs_F vs + 1 <= count ->
     state (w_core w') = StatePrepared /\
     exists payload m,
       sentMsgs (w_trace w') = sentMsgs (w_trace w) ++ [payload] /\
       FromPayload payload = Ok m /\ Code m = msgCommit /\
       Decode m = Ok (MsgSubject sub)).
Proof.
  intros vs count Hst Hcur Hsub Hview Hvn Hsq Hbelow Hnd Hvotes.
  destruct (handlePrepares_run sub votes w cur Hcur Hsub Hview
              (View_Cmp_refl (snap_View cur) Hvn Hsq))
    as (w' & cur' & Hrun & Hcur' & Hsize & Ha & _ & Hc).
  - intros _. exact Hst.
  - fold vs. unfold vs_Quorum. lia.
  - exact Hnd.
  - intros msg src Hin. rewrite Forall_forall in Hvotes.
    destruct (Hvotes (msg, src) Hin) as (H1 & H2 & H3). auto.
  - fold vs in Ha, Hc. unfold vs_Quorum in Ha, Hc.
    exists w', cur'. split; [exact Hrun |]. split; [exact Hcur' |].
    split; [exact Hsize |].
    split; [intros; apply Ha; assumption |]. intros; apply Hc; lia.
Qed.

End HandlerFacts.


(** ** The properties above on concrete cores *)

Lemma setState_replays_once_witness :
  let w := world_at StatePreprepared 1 in
  state (w_core w) ≠ StatePrepared /\
  (exists w',
     setState StatePrepared w = Some (tt, w') /\
     state (w_core w') = StatePrepared /\
     processBacklog_calls (w_trace w') = 1%nat) /\
  setState StatePreprepared w = Some (tt, w).
Proof.
  cbv zeta.
  pose proof (setState_replays_once (replay := specReplay)) as H.
  split; [discriminate |]. split.
  - destruct (proj1 (H StatePrepared (world_at StatePreprepared 1)))
      as (Hrun & _ & Hframe); [discriminate |].
    destruct (Hframe specReplay_frame) as [Hst Hcalls].
    eexists. split; [exact Hrun |]. split; [exact Hst | exact Hcalls].
  - apply (proj2 (H StatePreprepared (world_at StatePreprepared 1))).
    reflexivity.
Defined.

Lemma commit_steps_witness :
  current (w_core (world_at StatePrepared 7)) = Some (round_at 7) /\
  exists w' c1,
    commit (world_at StatePrepared 7) = Some (tt, w') /\
    state (w_core w') = StateAcceptRequest /\
    completed (w_core w') = true /\
    snapshots (w_core w') = [round_at 7] /\
    sequence (w_core w') = Some 7 /\
    viewNumber (w_core w') = Some 0 /\
    In (BackendCommit c1 proposal0) (w_trace w') /\
    state c1 = StateCommitted /\
    snapshots c1 = [] /\
    sequence c1 = Some 0 /\
    completed c1 = false.
Proof.
  split; [reflexivity |].
  destruct (commit_steps (frame := specReplay_frame)
              (world_at StatePrepared 7) (round_at 7) _ 7
              eq_refl eq_refl eq_refl)
    as (w' & t1 & c1 & c2 & t2 & t3 & H1 & H2 & H3 & H4 & H5 & H6 & Htr & _
        & Hst1 & _ & Hsn1 & Hsq1 & _ & Hco1 & _).
  exists w', c1. repeat (split; [assumption |]).
  split.
  { rewrite Htr. apply in_or_app. right. apply in_or_app. right.
    right. left. reflexivity. }
  repeat split; assumption.
Defined.

Lemma commit_checkpoint_trigger_witness :
  current (w_core (world_at StatePrepared 100)) = Some (round_at 100) /\
  (100 | 100) /\
  exists w' t0,
    commit (world_at StatePrepared 100) = Some (tt, w') /\
    w_trace w' = t0 ++ [GoPost buildCheckpointEvent] /\
    checkpoint_posts (t0 ++ [GoPost buildCheckpointEvent]) = 1%nat.
Proof.
  split; [reflexivity |].
  assert (Hdiv : (100 | 100)) by (exists 1; reflexivity).
  split; [exact Hdiv |].
  destruct (commit_checkpoint_trigger (frame := specReplay_frame)
              (world_at StatePrepared 100) (round_at 100) _ 100
              eq_refl eq_refl eq_refl)
    as (w' & t0 & H1 & _ & H3 & _).
  destruct (H3 Hdiv) as (H4 & H5 & _).
  exists w', t0. repeat split; assumption.
Defined.

(** Committing sequence 99 or 101 posts no checkpoint request;
    committing sequence 100 posts one. *)
Example commit_99_100_101 :
  List.map (fun seq =>
              option_map (fun r => checkpoint_posts (w_trace (snd r)))
                         (commit (world_at StatePrepared seq)))
           [99; 100; 101; 200; 0]
  = [Some 0%nat; Some 1%nat; Some 0%nat; Some 1%nat; Some 1%nat].
Proof. vm_compute. reflexivity. Qed.

Lemma broadcast_encoding_failure_witness :
  Encode msgCommit (MsgOpaque "chan") = Err (errOther "unsupported type") /\
  exists text,
    broadcast msgCommit (MsgOpaque "chan") (world_at StatePreprepared 1)
    = Some (tt, mkWorld (w_core (world_at StatePreprepared 1))
                  [Log LvlError text (Some (errOther "unsupported type"))]).
Proof.
  split; [reflexivity |].
  destruct (broadcast_encoding_failure (codec := wireCodec) msgCommit
              (MsgOpaque "chan") (errOther "unsupported type")
              (world_at StatePreprepared 1) (or_introl eq_refl))
    as (text & H & _).
  exists text. exact H.
Defined.

(** The error is not handed to the caller (C8 with the error surfaced
    to the caller): [broadcast] has no result, so what reaches its
    caller is the same whether the encoding failed or not. *)
Lemma broadcast_error_not_returned :
  let w := world_at StatePreprepared 1 in
  let s := {| sub_View := {| ViewNumber := Some 0; Sequence := Some 1 |};
              Digest := 0 |} in
  Encode msgCommit (MsgOpaque "chan") = Err (errOther "unsupported type") /\
  (exists m payload,
     Encode msgCommit (MsgSubject s) = Ok m /\ ToPayload m = Ok payload) /\
  option_map fst (broadcast msgCommit (MsgOpaque "chan") w) = Some tt /\
  option_map fst (broadcast msgCommit (MsgSubject s) w) = Some tt.
Proof.
  cbv zeta. split; [reflexivity |]. split; [| split; reflexivity].
  eexists _, _. split; reflexivity.
Qed.

(** ** The wire codec round-trips *)

Lemma dec_pos_enc (p : positive) (r : Bytes) :
  Wire.dec_pos (Wire.enc_pos p ++ r) = Some (p, r).
Proof.
  induction p as [q IH | q IH |]; simpl; [rewrite IH | rewrite IH |];
    reflexivity.
Qed.

Lemma dec_big_enc (z : bigInt) (r : Bytes) :
  Wire.dec_big (Wire.enc_big z ++ r) = Some (z, r).
Proof.
  destruct z as [[| p | p] |]; simpl; rewrite ?dec_pos_enc; reflexivity.
Qed.

Lemma dec_Z_enc (z : Z) (r : Bytes) :
  Wire.dec_Z (Wire.enc_Z z ++ r) = Some (z, r).
Proof.
  unfold Wire.dec_Z, Wire.enc_Z. rewrite dec_big_enc. reflexivity.
Qed.

Lemma dec_Subject_enc (s : Subject) :
  Wire.dec_Subject (Wire.enc_Subject s) = Some s.
Proof.
  unfold Wire.dec_Subject, Wire.enc_Subject.
  rewrite dec_big_enc, dec_big_enc.
  rewrite <- (app_nil_r (Wire.enc_Z (Digest s))), dec_Z_enc.
  destruct s as [[vn sq] d]. reflexivity.
Qed.

Lemma wireCodec_laws : CodecLaws wireCodec.
Proof.
  split. intros code s.
  exists {| Code := code; Msg := Wire.enc_Subject s; msg_Address := 0 |},
    (Wire.enc_Z code ++ Wire.enc_Z 0 ++ Wire.enc_Subject s).
  split; [reflexivity |]. split; [reflexivity |].
  exists {| Code := code; Msg := Wire.enc_Subject s; msg_Address := 0 |}.
  split.
  { unfold FromPayload, wireCodec, Wire.FromPayload.
    rewrite dec_Z_enc, dec_Z_enc. reflexivity. }
  split; [reflexivity |].
  unfold Decode, wireCodec, Wire.Decode. cbn [Msg].
  rewrite dec_Subject_enc. reflexivity.
Qed.

(** ** Prepare handling on the cores of the tests *)

Lemma verifyPrepare_subject_witness :
  let w := world_at StatePreprepared 1 in
  current (w_core w) = Some (round_at 1) /\
  snap_Subject (round_at 1) = Some (testSubject (view_of 0 1)) /\
  verifyPrepare (testSubject (view_of 0 1)) 2 w = Some (None, w) /\
  verifyPrepare (testSubject (view_of 1 1)) 2 w
  = Some (Some errInconsistentSubject, w).
Proof.
  cbv zeta.
  destruct (verifyPrepare_subject (codec := wireCodec) (replay := specReplay)
              (world_at StatePreprepared 1) (round_at 1)
              (testSubject (view_of 0 1)) (testSubject (view_of 0 1)) 2
              eq_refl eq_refl) as (_ & _ & _ & _ & _ & Hsame & _).
  destruct (verifyPrepare_subject (codec := wireCodec) (replay := specReplay)
              (world_at StatePreprepared 1) (round_at 1)
              (testSubject (view_of 0 1)) (testSubject (view_of 1 1)) 2
              eq_refl eq_refl) as (Hdiff & _).
  split; [reflexivity |]. split; [reflexivity |].
  split; [apply Hsame; reflexivity | apply Hdiff; discriminate].
Defined.

(** The table of TestVerifyPrepare: the vote, the view of the round
    state, and the outcome. *)
Example TestVerifyPrepare :
  let run (prepare : Subject) (view : View) :=
    option_map fst
      (verifyPrepare prepare 1
         {| w_core := set_current (Some (newTestRoundState view))
                                  (New backend4);
            w_trace := [] |}) in
  let digest := Wire.ProposalHash proposal0 in
  (* normal case *)
  run (testSubject (view_of 0 0)) (view_of 0 0) = Some None /\
  (* old message *)
  run (testSubject (view_of 0 0)) (view_of 1 1)
  = Some (Some errInconsistentSubject) /\
  (* different digest *)
  run {| sub_View := view_of 0 0; Digest := digest + 1234567890 |}
      (view_of 1 1)
  = Some (Some errInconsistentSubject) /\
  (* malicious package (lack of sequence) *)
  run (testSubject {| ViewNumber := Some 0; Sequence := None |}) (view_of 1 1)
  = Some (Some errInconsistentSubject) /\
  (* same sequence but different round *)
  run (testSubject (view_of 1 0)) (view_of 0 0)
  = Some (Some errInconsistentSubject) /\
  (* same round but different sequence *)
  run (testSubject (view_of 0 1)) (view_of 0 0)
  = Some (Some errInconsistentSubject).
Proof. vm_compute. repeat split. Qed.

Lemma handlePrepare_old_future_witness :
  let w := world_at StatePreprepared 5 in
  let old := prepareVote (testSubject (view_of 0 4)) 2 in
  let future := prepareVote (testSubject (view_of 0 6)) 2 in
  View_Cmp (view_of 0 4) (snap_View (round_at 5)) = Some Lt /\
  handlePrepare old.1 2 w = Some (Some errOldMessage, w) /\
  View_Cmp (view_of 0 6) (snap_View (round_at 5)) = Some Gt /\
  exists w' q,
    handlePrepare future.1 2 w = Some (Some errFutureMessage, w') /\
    backlogs (w_core w') = <[2 := q]> (backlogs (w_core w)) /\
    q ≡ₚ [{| be_view := view_of 0 6; be_msg := future.1 |}].
Proof.
  cbv zeta.
  split; [reflexivity |]. split.
  - apply (proj1 (handlePrepare_old_future (codec := wireCodec)
                    (replay := specReplay)
                    (prepareVote (testSubject (view_of 0 4)) 2).1 2
                    (testSubject (view_of 0 4))
                    (world_at StatePreprepared 5) (round_at 5)
                    eq_refl eq_refl)).
    reflexivity.
  - split; [reflexivity |].
    destruct (proj2 (handlePrepare_old_future (codec := wireCodec)
                       (replay := specReplay)
                       (prepareVote (testSubject (view_of 0 6)) 2).1 2
                       (testSubject (view_of 0 6))
                       (world_at StatePreprepared 5) (round_at 5)
                       eq_refl eq_refl) eq_refl)
      as (w' & q & H1 & H2 & H3 & _).
    exists w', q. repeat split; assumption.
Defined.

Lemma handlePrepare_quorum_witness :
  let w := world_at StatePreprepared 1 in
  let sub := testSubject (view_of 0 1) in
  let votes := [prepareVote sub 1; prepareVote sub 2; prepareVote sub 3] in
  state (w_core w) = StatePreprepared /\
  Z.of_nat (size (Prepares (round_at 1)))
  < 2 * vs_F (bk_Validators (backend (w_core w))) + 1
  <= Z.of_nat (size (Prepares (round_at 1))) + Z.of_nat (length votes) /\
  exists w' payload m,
    handlePrepares votes w = Some (None, w') /\
    state (w_core w') = StatePrepared /\
    sentMsgs (w_trace w') = [payload] /\
    FromPayload payload = Ok m /\ Code m = msgCommit /\
    Decode m = Ok (MsgSubject sub).
Proof.
  cbv zeta. split; [reflexivity |].
  split; [vm_compute; split; [reflexivity | discriminate] |].
  destruct (handlePrepare_quorum (claws := wireCodec_laws)
              (frame := specReplay_frame)
              (world_at StatePreprepared 1) (round_at 1)
              (testSubject (view_of 0 1))
              [prepareVote (testSubject (view_of 0 1)) 1;
               prepareVote (testSubject (view_of 0 1)) 2;
               prepareVote (testSubject (view_of 0 1)) 3])
    as (w' & cur' & Hrun & _ & _ & _ & Hq);
    try reflexivity.
  - eexists; reflexivity.
  - eexists; reflexivity.
  - apply (bool_decide_unpack _). vm_compute. exact I.
  - repeat (apply Forall_cons; split;
            [split; [apply (bool_decide_unpack _); vm_compute; exact I
                    | split; reflexivity] |]).
    apply Forall_nil_2.
  - destruct Hq as (Hst & payload & m & H1 & H2 & H3 & H4);
      [vm_compute; discriminate |].
    exists w', payload, m. repeat split; assumption.
Defined.

(** The cases of TestHandlePrepare, replica 0 handling the votes of the
    replicas in turn: all four agree; the others are at a later view;
    the others are at an earlier view; a single replica. *)
Example TestHandlePrepare :
  let w := world_at StatePreprepared 1 in
  let own := testSubject (view_of 0 1) in
  let votes_of (other : Subject) :=
    [prepareVote own 1; prepareVote other 2; prepareVote other 3;
     prepareVote other 4] in
  observed (handlePrepares (votes_of own) w)
  = Some (None, StatePrepared, Some 4%nat,
          [Some (msgCommit, Ok (MsgSubject own))]) /\
  observed (handlePrepares (votes_of (testSubject (view_of 2 3))) w)
  = Some (Some errFutureMessage, StatePreprepared, Some 1%nat, []) /\
  observed (handlePrepares (votes_of (testSubject (view_of 0 0))) w)
  = Some (Some errOldMessage, StatePreprepared, Some 1%nat, []) /\
  observed (handlePrepares [prepareVote own 1] w)
  = Some (None, StatePreprepared, Some 1%nat, []) /\
  observed (handlePrepares [prepareVote own 1; prepareVote own 2] w)
  = Some (None, StatePreprepared, Some 2%nat, []).
Proof. vm_compute. repeat split. Qed.

(** ** Package simple *)

Section EthDBFacts.
Import Simple.
Context {D V : Type} {database : Database D} {json : Json V}.

Lemma getKey_prefix (key : string) : getKey key = ("pbft_" +:+ key)%string.
Proof. reflexivity. Qed.

(** C9.  [Save] returns the error of [json.Marshal] when there is one,
    without touching the database, and otherwise whatever [Put] returns;
    [Restore] returns the error of [Get] when there is one, without
    touching the value, and otherwise whatever [json.Unmarshal] returns.
    Either returns nil only when both of its steps succeed. *)
Theorem Save_Restore_errors (e : ethDB D) (key : string) (val : V) :
  (forall err, Marshal val = Err err -> Save e key val = (e, Some err)) /\
  (forall blob,
     Marshal val = Ok blob ->
     snd (Save e key val)
     = snd (Put (db e) (list_byte_of_string (getKey key)) blob)) /\
  (snd (Save e key val) = None <->
   exists blob,
     Marshal val = Ok blob /\
     snd (Put (db e) (list_byte_of_string (getKey key)) blob) = None) /\
  (forall err,
     Get (db e) (list_byte_of_string (getKey key)) = Err err ->
     Restore e key val = (val, Some err)) /\
  (forall blob,
     Get (db e) (list_byte_of_string (getKey key)) = Ok blob ->
     Restore e key val = Unmarshal blob val) /\
  (snd (Restore e key val) = None <->
   exists blob,
     Get (db e) (list_byte_of_string (getKey key)) = Ok blob /\
     snd (Unmarshal blob val) = None).
Proof.
  assert (Hrestore : forall blob,
            Get (db e) (list_byte_of_string (getKey key)) = Ok blob ->
            Restore e key val = Unmarshal blob val).
  { intros blob Hget. unfold Restore. rewrite Hget.
    destruct (Unmarshal blob val) as [val' [err |]]; reflexivity. }
  split; [intros err Hm; unfold Save; rewrite Hm; reflexivity |].
  split; [intros blob Hm; unfold Save; rewrite Hm; reflexivity |].
  split.
  { unfold Save. destruct (Marshal val) as [blob | err]; simpl.
    - split; [intros Hput; exists blob; auto |].
      intros (blob' & Heq & Hput). injection Heq as <-. exact Hput.
    - split; [discriminate |]. intros (blob' & Heq & _). discriminate. }
  split; [intros err Hget; unfold Restore; rewrite Hget; reflexivity |].
  split; [exact Hrestore |].
  destruct (Get (db e) (list_byte_of_string (getKey key)))
    as [blob | err] eqn:Hget.
  - rewrite (Hrestore blob eq_refl).
    split; [intros Hu; exists blob; auto |].
    intros (blob' & Heq & Hu). injection Heq as <-. exact Hu.
  - unfold Restore. rewrite Hget. simpl.
    split; [discriminate |]. intros (blob' & Heq & _). discriminate.
Qed.

(** C10.  [Save] and [Restore] address the database with the same key,
    the bytes of "pbft_" followed by the caller's key.  Over a store
    that keeps what is put, and for a value that JSON round-trips, a
    [Restore] after a successful [Save] under the same key yields the
    value that was saved and no error. *)
Theorem Restore_after_Save
    {faithful : Faithful D} (e e' : ethDB D) (key : string) (v v0 : V) :
  (forall blob, Marshal v = Ok blob -> Unmarshal blob v0 = (v, None)) ->
  Save e key v = (e', None) ->
  getKey key = ("pbft_" +:+ key)%string /\
  (exists blob,
     Marshal v = Ok blob /\
     Put (db e) (list_byte_of_string ("pbft_" +:+ key)) blob = (db e', None) /\
     Get (db e') (list_byte_of_string ("pbft_" +:+ key)) = Ok blob) /\
  Restore e' key v0 = (v, None).
Proof.
  intros Hjson Hsave. split; [reflexivity |].
  unfold Save in Hsave. destruct (Marshal v) as [blob | err] eqn:Hm;
    [| discriminate].
  rewrite getKey_prefix in Hsave.
  destruct (Put (db e) (list_byte_of_string ("pbft_" +:+ key)) blob)
    as [d' r] eqn:Hput.
  simpl in Hsave. injection Hsave as <- ->. simpl.
  pose proof (get_put _ _ _ _ Hput) as Hget.
  split.
  - exists blob. repeat split; assumption.
  - unfold Restore. rewrite getKey_prefix. simpl. rewrite Hget.
    rewrite (Hjson blob eq_refl). reflexivity.
Qed.

End EthDBFacts.

Lemma memDatabase_faithful : Simple.Faithful (gmap string Bytes).
Proof.
  intros d k blob d' Hput. simpl in *. injection Hput as <-.
  rewrite lookup_insert_eq. reflexivity.
Qed.

Lemma Save_Restore_errors_witness :
  (* Marshal fails: its error comes back and the store is untouched *)
  Simple.Save (Simple.newDBer (∅ : gmap string Bytes)) "snapshot"
              Simple.GoChan
  = (Simple.newDBer ∅, Some (errOther "json: unsupported type: chan int")) /\
  (* Put fails: its error comes back *)
  snd (Simple.Save (Simple.newDBer tt) "snapshot" (Simple.GoBool true))
  = Some (errOther "put failed") /\
  (* Get fails: its error comes back and the value is untouched *)
  Simple.Restore (Simple.newDBer (∅ : gmap string Bytes)) "snapshot"
                 (Simple.GoBool false)
  = (Simple.GoBool false, Some (errOther "not found")).
Proof.
  split; [| split].
  - apply (proj1 (Save_Restore_errors
                    (Simple.newDBer (∅ : gmap string Bytes)) "snapshot"
                    Simple.GoChan)).
    reflexivity.
  - rewrite (proj1 (proj2 (Save_Restore_errors
                             (database := Simple.brokenDatabase)
                             (json := Simple.goJson)
                             (Simple.newDBer tt) "snapshot"
                             (Simple.GoBool true)))
               (list_byte_of_string "true") eq_refl).
    reflexivity.
  - apply (proj1 (proj2 (proj2 (proj2
             (Save_Restore_errors
                (Simple.newDBer (∅ : gmap string Bytes)) "snapshot"
                (Simple.GoBool false)))))).
    reflexivity.
Defined.

Lemma Restore_after_Save_witness :
  let e := Simple.newDBer (∅ : gmap string Bytes) in
  let e' := Simple.newDBer
              (<["pbft_snapshot" := list_byte_of_string "true"]>
                 (∅ : gmap string Bytes)) in
  Simple.Save e "snapshot" (Simple.GoBool true) = (e', None) /\
  Simple.Restore e' "snapshot" (Simple.GoBool false)
  = (Simple.GoBool true, None).
Proof.
  cbv zeta.
  assert (Hsave :
    Simple.Save (Simple.newDBer (∅ : gmap string Bytes)) "snapshot"
                (Simple.GoBool true)
    = (Simple.newDBer
         (<["pbft_snapshot" := list_byte_of_string "true"]>
            (∅ : gmap string Bytes)), None)) by reflexivity.
  split; [exact Hsave |].
  destruct (Restore_after_Save (faithful := memDatabase_faithful)
              (Simple.newDBer (∅ : gmap string Bytes))
              (Simple.newDBer
                 (<["pbft_snapshot" := list_byte_of_string "true"]>
                    (∅ : gmap string Bytes)))
              "snapshot" (Simple.GoBool true) (Simple.GoBool false))
    as (_ & _ & Hrestore).
  - intros blob Hm. injection Hm as <-. reflexivity.
  - exact Hsave.
  - exact Hrestore.
Defined.

(** * Further properties of the code *)

(** ** [New]: the bounds on F *)

Lemma New_f_ceil (n : Z) : 0 <= n <= 2 ^ 53 + 4 -> New_f n = ceil_div n 3 - 1.
Proof.
  intros Hn.
  destruct (Z_le_gt_dec n (2 ^ 53)) as [Hle | Hgt].
  - destruct (Z.eq_dec n 0) as [-> | Hz]; [vm_compute; reflexivity |].
    apply Float64Facts.New_f_exact. lia.
  - assert (Hcases : n = 2 ^ 53 + 1 \/ n = 2 ^ 53 + 2 \/
                     n = 2 ^ 53 + 3 \/ n = 2 ^ 53 + 4) by lia.
    destruct Hcases as [-> | [-> | [-> | ->]]]; vm_compute; reflexivity.
Qed.

(** X1.  For every validator set of at most 2^53 + 4 members, the empty
    one included, the fields of the core built by [New] satisfy
    3F + 1 <= N <= 3F + 3: the core tolerates fewer than a third of the
    validators, and no more validators could be tolerated.  The quorum
    2F + 1 never exceeds N, and F is negative exactly for the empty
    validator set. *)
Theorem New_fault_bound (b : Backend) :
  N (New b) <= 2 ^ 53 + 4 ->
  3 * F (New b) + 1 <= N (New b) <= 3 * F (New b) + 3 /\
  2 * F (New b) + 1 <= N (New b) /\
  (0 <= F (New b) <-> 1 <= N (New b)).
Proof.
  intros Hn. rewrite New_F.
  assert (H0 : 0 <= N (New b)) by (rewrite New_N; lia).
  rewrite New_f_ceil by lia.
  rewrite Float64Facts.ceil_div_3.
  pose proof (Z.div_mod (N (New b) + 2) 3 ltac:(lia)) as Hd.
  pose proof (Z.mod_pos_bound (N (New b) + 2) 3 ltac:(lia)) as Hm.
  lia.
Qed.

Lemma New_fault_bound_witness :
  N (New backend4) <= 2 ^ 53 + 4 /\
  3 * F (New backend4) + 1 <= 4 <= 3 * F (New backend4) + 3 /\
  2 * F (New backend4) + 1 <= 4.
Proof.
  assert (Hn : N (New backend4) <= 2 ^ 53 + 4) by (vm_compute; discriminate).
  split; [exact Hn |].
  destruct (New_fault_bound backend4 Hn) as (H1 & H2 & _).
  split; [exact H1 | exact H2].
Defined.

(** ** core.go: more on [commit], [setState] and [broadcast] *)

Lemma committed_app (t1 t2 : list effect) :
  committed (t1 ++ t2) = committed t1 ++ committed t2.
Proof. apply omap_app. Qed.

Lemma backlog_posts_commit_nothing (t : list effect) :
  forallb is_backlog_post t = true -> committed t = [].
Proof.
  induction t as [| e t IH]; [reflexivity |].
  simpl. intros H. apply andb_true_iff in H as [He Ht].
  destruct e as [| | ev | ev | |]; try discriminate;
    destruct ev; try discriminate; simpl; auto.
Qed.

Section CoreMore.
Context {codec : Codec} {replay : Replay}.

(** X7.  Every call of [broadcast] returns, leaves the core as it is
    and makes exactly one call: [Backend.Send] with the payload when
    [pbft.Encode] and [ToPayload] both succeed, and otherwise one log
    entry at level Error with the error of the step that failed; it
    never does both. *)
Theorem broadcast_one_call (code : Z) (msg : TypedMsg) (w : world) :
  exists e,
    broadcast code msg w = Some (tt, mkWorld (w_core w) (w_trace w ++ [e])) /\
    ((exists m payload,
        Encode code msg = Ok m /\ ToPayload m = Ok payload /\
        e = Send payload) \/
     (exists text err,
        e = Log LvlError text (Some err) /\
        (Encode code msg = Err err \/
         exists m, Encode code msg = Ok m /\ ToPayload m = Err err))).
Proof.
  rewrite broadcast_run. eexists. split; [reflexivity |].
  destruct (Encode code msg) as [m | e] eqn:HE.
  - destruct (ToPayload m) as [p | e] eqn:HP.
    + left. eauto.
    + right. do 2 eexists. split; [reflexivity |]. right. eauto.
  - right. do 2 eexists. split; [reflexivity |]. left. reflexivity.
Qed.

Context {frame : ReplayFrame replay}.

(** [processBacklog] leaves the identity of the core as it is. *)
Lemma replay_frame_all (c : core) :
  let c' := fst (processBacklog c) in
  address c' = address c /\ N c' = N c /\ F c' = F c /\
  events c' = events c /\ subject c' = subject c.
Proof.
  intros c'. unfold c'. rewrite processBacklog_core. simpl. repeat split.
Qed.

(** X6.  With a replay that keeps to the backlog, [setState s] leaves
    the core in state [s], and a second [setState s] right after it
    changes nothing and invokes nothing: two calls in a row are one
    call.  A call invokes [processBacklog] at most once. *)
Theorem setState_idempotent (s : State) (w : world) :
  exists w',
    setState s w = Some (tt, w') /\
    state (w_core w') = s /\
    setState s w' = Some (tt, w') /\
    (setState s ;; setState s) w = setState s w /\
    (processBacklog_calls (w_trace w')
     <= S (processBacklog_calls (w_trace w)))%nat.
Proof.
  unfold bind. rewrite setState_run.
  destruct (decide (state (w_core w) ≠ s)) as [Hne | Heq].
  - cbv zeta. eexists. split; [reflexivity |].
    assert (Hs : state (fst (processBacklog (set_state s (w_core w)))) = s).
    { destruct (replay_fields (set_state s (w_core w))) as (-> & _).
      reflexivity. }
    split; [exact Hs |].
    assert (Hrun : setState s
       {| w_core := fst (processBacklog (set_state s (w_core w)));
          w_trace := w_trace w ++ CallProcessBacklog (set_state s (w_core w))
                     :: snd (processBacklog (set_state s (w_core w))) |}
       = Some (tt, {| w_core := fst (processBacklog (set_state s (w_core w)));
          w_trace := w_trace w ++ CallProcessBacklog (set_state s (w_core w))
                     :: snd (processBacklog (set_state s (w_core w))) |})).
    { rewrite setState_run. simpl. rewrite Hs.
      destruct (decide (s ≠ s)); [contradiction | reflexivity]. }
    split; [exact Hrun |]. split; [exact Hrun |].
    simpl. rewrite processBacklog_calls_app.
    destruct (backlog_posts_only _
                (processBacklog_posts (set_state s (w_core w))))
      as (_ & Hcalls & _).
    unfold processBacklog_calls in *. simpl. rewrite Hcalls. lia.
  - assert (Hs : state (w_core w) = s).
    { destruct (decide (state (w_core w) = s)); [assumption | contradiction]. }
    exists w. split; [reflexivity |]. split; [exact Hs |].
    assert (Hrun : setState s w = Some (tt, w)).
    { rewrite setState_run.
      destruct (decide (state (w_core w) ≠ s)); [contradiction | reflexivity]. }
    split; [exact Hrun |]. split; [exact Hrun |]. lia.
Qed.

(** The first step of [commit] keeps the round. *)
Lemma commit_enter (w : world) :
  exists w1,
    setState StateCommitted w = Some (tt, w1) /\
    current (w_core w1) = current (w_core w) /\
    state (w_core w1) = StateCommitted.
Proof.
  rewrite setState_run.
  destruct (decide (state (w_core w) ≠ StateCommitted)) as [Hne | Heq].
  - cbv zeta. eexists. split; [reflexivity |]. simpl.
    destruct (replay_fields (set_state StateCommitted (w_core w)))
      as (-> & -> & _). split; reflexivity.
  - exists w. split; [reflexivity |]. split; [reflexivity |].
    destruct (decide (state (w_core w) = StateCommitted));
      [assumption | contradiction].
Qed.

(** X2.  [commit] panics on a nil pointer exactly when the core has no
    current round, or the round has no accepted Preprepare, or the round
    has no sequence; in every other case it returns. *)
Theorem commit_panics_iff (w : world) :
  commit w = None <->
  (current (w_core w) = None \/
   exists cur, current (w_core w) = Some cur /\
               (snap_Preprepare cur = None \/ snap_Sequence cur = None)).
Proof.
  destruct (commit_enter w) as (w1 & Hset & Hcur1 & Hst1).
  destruct (current (w_core w)) as [cur |] eqn:Hcur.
  2:{ split; [auto |]. intros _.
      unfold commit. unfold bind at 1. rewrite Hset.
      destruct w1 as [c1 t1]. simpl in *. mstep. rewrite Hcur1. reflexivity. }
  destruct (snap_Preprepare cur) as [pp |] eqn:Hpp.
  2:{ split; [intros _; right; exists cur; auto |]. intros _.
      unfold commit. unfold bind at 1. rewrite Hset.
      destruct w1 as [c1 t1]. simpl in *.
      mstep. rewrite Hcur1. mstep. rewrite Hpp. reflexivity. }
  destruct (snap_Sequence cur) as [n |] eqn:Hn.
  - destruct (commit_shape w cur pp n Hcur Hpp Hn)
      as (w' & ? & ? & ? & ? & Hrun & _).
    rewrite Hrun. split; [discriminate |].
    intros [H | (cur' & H & [H' | H'])]; try discriminate;
      injection H as <-; congruence.
  - split; [intros _; right; exists cur; auto |]. intros _.
    unfold commit. unfold bind at 1. rewrite Hset.
    destruct w1 as [c1 t1]. simpl in *.
    repeat first [ mstep | rewrite Hcur1 | rewrite Hpp ].
    unfold bind at 1. rewrite setState_run. simpl. rewrite Hst1.
    destruct (decide (StateCommitted ≠ StateAcceptRequest)) as [_ | Hc];
      [| exfalso; apply Hc; discriminate].
    rewrite Hn.
    set (c2 := set_state _ _).
    destruct (replay_fields c2) as (_ & _ & _ & Hseq & _).
    mstep. rewrite Hseq. reflexivity.
Qed.

(** What [commit] keeps, and the proposals that the backend has been
    given after it. *)
Lemma commit_keeps (w : world) (cur : snapshot) (pp : Preprepare) (n : Z) :
  current (w_core w) = Some cur ->
  snap_Preprepare cur = Some pp ->
  snap_Sequence cur = Some n ->
  exists w',
    commit w = Some (tt, w') /\
    current (w_core w') = Some cur /\
    address (w_core w') = address (w_core w) /\
    N (w_core w') = N (w_core w) /\
    F (w_core w') = F (w_core w) /\
    backend (w_core w') = backend (w_core w) /\
    events (w_core w') = events (w_core w) /\
    subject (w_core w') = subject (w_core w) /\
    snapshots (w_core w') = snapshots (w_core w) ++ [cur] /\
    sequence (w_core w') = Some n /\
    viewNumber (w_core w') = snap_ViewNumber cur /\
    committed (w_trace w') = committed (w_trace w) ++ [pp_Proposal pp].
Proof.
  intros Hcur Hpp Hn.
  pose proof (commit_run w cur pp n Hcur Hpp Hn) as Hrun. cbv zeta in Hrun.
  set (w1 := if decide (state (w_core w) ≠ StateCommitted) then _ else w)
    in Hrun.
  set (c2 := set_state StateAcceptRequest _) in Hrun.
  eexists. split; [exact Hrun |]. simpl.
  assert (Hw1 : current (w_core w1) = Some cur /\
                address (w_core w1) = address (w_core w) /\
                N (w_core w1) = N (w_core w) /\
                F (w_core w1) = F (w_core w) /\
                backend (w_core w1) = backend (w_core w) /\
                events (w_core w1) = events (w_core w) /\
                subject (w_core w1) = subject (w_core w) /\
                committed (w_trace w1) = committed (w_trace w)).
  { unfold w1. destruct (decide (state (w_core w) ≠ StateCommitted));
      [| repeat split; assumption].
    simpl.
    destruct (replay_fields (set_state StateCommitted (w_core w)))
      as (_ & -> & _ & _ & _ & _ & ->).
    destruct (replay_frame_all (set_state StateCommitted (w_core w)))
      as (-> & -> & -> & -> & ->).
    simpl. repeat (split; [first [assumption | reflexivity] |]).
    rewrite committed_app. simpl.
    rewrite (backlog_posts_commit_nothing _
               (processBacklog_posts (set_state StateCommitted (w_core w)))).
    apply app_nil_r. }
  destruct Hw1 as (H1 & H2 & H3 & H4 & H5 & H6 & H7 & H8).
  assert (Hc : committed
                 (w_trace w1
                  ++ [Log LvlDebug "Ready to commit" None;
                      BackendCommit (w_core w1) (pp_Proposal pp)]
                  ++ CallProcessBacklog c2 :: snd (processBacklog c2)
                  ++ (if decide (n mod 100 = 0)
                      then [GoPost buildCheckpointEvent] else []))
               = committed (w_trace w) ++ [pp_Proposal pp]).
  { change (CallProcessBacklog c2 :: snd (processBacklog c2)
            ++ (if decide (n mod 100 = 0)
                then [GoPost buildCheckpointEvent] else []))
      with ([CallProcessBacklog c2] ++ snd (processBacklog c2)
            ++ (if decide (n mod 100 = 0)
                then [GoPost buildCheckpointEvent] else [])).
    rewrite !committed_app, H8.
    rewrite (backlog_posts_commit_nothing _ (processBacklog_posts c2)).
    destruct (decide (n mod 100 = 0)); reflexivity. }
  destruct (replay_fields c2) as (_ & -> & -> & -> & -> & _ & ->).
  destruct (replay_frame_all c2) as (-> & -> & -> & -> & ->).
  unfold c2 at 1 2 3 4 5 6 7 8 9 10. simpl.
  repeat (split; [first [assumption | reflexivity] |]).
  exact Hc.
Qed.

(** X3.  [commit] writes five fields of the core: the state, the
    snapshot history, the sequence, the view number and the completion
    flag.  The two replays that its state changes trigger may change the
    backlogs.  Every other field is as it was: the core after [commit]
    is the core before it with these six fields replaced, so the current
    round stays in place, and the address, N, F, the backend, the event
    subscription and the subject are unchanged. *)
Theorem commit_frame (w : world) (cur : snapshot) (pp : Preprepare) (n : Z) :
  current (w_core w) = Some cur ->
  snap_Preprepare cur = Some pp ->
  snap_Sequence cur = Some n ->
  exists w' b',
    commit w = Some (tt, w') /\
    w_core w' =
      set_backlogs b'
        (set_state StateAcceptRequest
           (set_completed true
              (set_sequence (Some n)
                 (set_viewNumber (snap_ViewNumber cur)
                    (set_snapshots (snapshots (w_core w) ++ [cur])
                                   (w_core w)))))) /\
    current (w_core w') = current (w_core w) /\
    address (w_core w') = address (w_core w) /\
    N (w_core w') = N (w_core w) /\
    F (w_core w') = F (w_core w) /\
    backend (w_core w') = backend (w_core w) /\
    events (w_core w') = events (w_core w) /\
    subject (w_core w') = subject (w_core w).
Proof.
  intros Hcur Hpp Hn.
  destruct (commit_keeps w cur pp n Hcur Hpp Hn)
    as (w' & Hrun & H1 & H2 & H3 & H4 & H5 & H6 & H7 & _).
  pose proof (commit_run w cur pp n Hcur Hpp Hn) as Hrun'.
  cbv zeta in Hrun'. rewrite Hrun in Hrun'. injection Hrun' as Hw'.
  set (c2 := set_state StateAcceptRequest _) in Hw'.
  exists w', (backlogs (fst (processBacklog c2))).
  split; [exact Hrun |].
  split.
  { rewrite Hw'. simpl. rewrite processBacklog_core. unfold c2.
    destruct (decide (state (w_core w) ≠ StateCommitted)); [| reflexivity].
    simpl. rewrite (processBacklog_core (set_state StateCommitted (w_core w))).
    reflexivity. }
  rewrite Hcur. repeat (split; [assumption |]). assumption.
Qed.

(** X4.  [commit] is not idempotent and does not guard against a
    repeated call: as it leaves the current round in place, a second
    [commit] hands the same proposal to [Backend.Commit] again and
    appends the same round to the snapshot history a second time. *)
Theorem commit_twice (w : world) (cur : snapshot) (pp : Preprepare) (n : Z) :
  current (w_core w) = Some cur ->
  snap_Preprepare cur = Some pp ->
  snap_Sequence cur = Some n ->
  exists w1 w2,
    commit w = Some (tt, w1) /\
    commit w1 = Some (tt, w2) /\
    snapshots (w_core w2) = snapshots (w_core w) ++ [cur; cur] /\
    committed (w_trace w2)
    = committed (w_trace w) ++ [pp_Proposal pp; pp_Proposal pp].
Proof.
  intros Hcur Hpp Hn.
  destruct (commit_keeps w cur pp n Hcur Hpp Hn)
    as (w1 & Hrun1 & Hcur1 & _ & _ & _ & _ & _ & _ & Hsn1 & _ & _ & Hc1).
  destruct (commit_keeps w1 cur pp n Hcur1 Hpp Hn)
    as (w2 & Hrun2 & _ & _ & _ & _ & _ & _ & _ & Hsn2 & _ & _ & Hc2).
  exists w1, w2. split; [exact Hrun1 |]. split; [exact Hrun2 |].
  rewrite Hsn2, Hsn1, Hc2, Hc1, <- !app_assoc. split; reflexivity.
Qed.

(** X5.  After [commit] of a round with sequence n, [nextSequence]
    yields the view number of that round with sequence n + 1, and
    [nextViewNumber] yields that view number plus one with sequence n;
    neither changes the core.  [nextViewNumber] panics when the
    committed round had no view number. *)
Theorem commit_then_next
    (w : world) (cur : snapshot) (pp : Preprepare) (n : Z) :
  current (w_core w) = Some cur ->
  snap_Preprepare cur = Some pp ->
  snap_Sequence cur = Some n ->
  exists w',
    commit w = Some (tt, w') /\
    nextSequence w'
    = Some ({| ViewNumber := snap_ViewNumber cur; Sequence := Some (n + 1) |},
            w') /\
    nextViewNumber w'
    = match snap_ViewNumber cur with
      | Some v =>
          Some ({| ViewNumber := Some (v + 1); Sequence := Some n |}, w')
      | None => None
      end.
Proof.
  intros Hcur Hpp Hn.
  destruct (commit_keeps w cur pp n Hcur Hpp Hn)
    as (w' & Hrun & _ & _ & _ & _ & _ & _ & _ & _ & Hsq & Hvn & _).
  exists w'. split; [exact Hrun |].
  unfold nextSequence, nextViewNumber.
  rewrite !bind_get_core, Hsq, Hvn. simpl.
  split; [reflexivity |].
  destruct (snap_ViewNumber cur); reflexivity.
Qed.

End CoreMore.

(** A core fresh from [New] has no current round: [commit] panics on
    it. *)
Lemma commit_panics_iff_witness :
  commit (mkWorld (New backend4) []) = None.
Proof.
  apply (proj2 (commit_panics_iff (frame := specReplay_frame)
                  (mkWorld (New backend4) []))).
  left. reflexivity.
Defined.

Lemma commit_frame_witness :
  current (w_core (world_at StatePrepared 7)) = Some (round_at 7) /\
  exists w' b',
    commit (world_at StatePrepared 7) = Some (tt, w') /\
    w_core w' =
      set_backlogs b'
        (set_state StateAcceptRequest
           (set_completed true
              (set_sequence (Some 7)
                 (set_viewNumber (Some 0)
                    (set_snapshots [round_at 7]
                       (w_core (world_at StatePrepared 7))))))) /\
    current (w_core w') = Some (round_at 7) /\
    N (w_core w') = 4 /\ F (w_core w') = 1.
Proof.
  split; [reflexivity |].
  destruct (commit_frame (frame := specReplay_frame)
              (world_at StatePrepared 7) (round_at 7) _ 7
              eq_refl eq_refl eq_refl)
    as (w' & b' & H1 & H2 & H3 & _ & H5 & H6 & _).
  exists w', b'. repeat split; assumption.
Defined.

(** The backlogs are not among the fields that [commit] keeps: under
    the replay modelled from the specification, an entry behind the
    current view is dropped from its queue. *)
Example commit_drops_stale_backlog :
  backlogs (w_core world_stale) !! 2 = Some [stale_entry] /\
  option_map (fun r => backlogs (w_core (snd r)) !! 2) (commit world_stale)
  = Some (Some []).
Proof. split; vm_compute; reflexivity. Qed.

Lemma commit_twice_witness :
  current (w_core (world_at StatePrepared 7)) = Some (round_at 7) /\
  exists w1 w2,
    commit (world_at StatePrepared 7) = Some (tt, w1) /\
    commit w1 = Some (tt, w2) /\
    snapshots (w_core w2) = [round_at 7; round_at 7] /\
    committed (w_trace w2) = [proposal0; proposal0].
Proof.
  split; [reflexivity |].
  destruct (commit_twice (frame := specReplay_frame)
              (world_at StatePrepared 7) (round_at 7) _ 7
              eq_refl eq_refl eq_refl)
    as (w1 & w2 & H1 & H2 & H3 & H4).
  exists w1, w2. repeat split; assumption.
Defined.

Lemma commit_then_next_witness :
  current (w_core (world_at StatePrepared 7)) = Some (round_at 7) /\
  exists w',
    commit (world_at StatePrepared 7) = Some (tt, w') /\
    nextSequence w' = Some (view_of 0 8, w') /\
    nextViewNumber w' = Some (view_of 1 7, w').
Proof.
  split; [reflexivity |].
  destruct (commit_then_next (frame := specReplay_frame)
              (world_at StatePrepared 7) (round_at 7) _ 7
              eq_refl eq_refl eq_refl)
    as (w' & H1 & H2 & H3).
  exists w'. repeat split; assumption.
Defined.

Lemma setState_idempotent_witness :
  exists w',
    setState StatePrepared (world_at StatePreprepared 1) = Some (tt, w') /\
    state (w_core w') = StatePrepared /\
    setState StatePrepared w' = Some (tt, w').
Proof.
  destruct (setState_idempotent (frame := specReplay_frame)
              StatePrepared (world_at StatePreprepared 1))
    as (w' & H1 & H2 & H3 & _).
  exists w'. repeat split; assumption.
Defined.

(** ** Package simple: the keys *)

Lemma string_length_app (s1 s2 : string) :
  String.length (s1 +:+ s2) = (String.length s1 + String.length s2)%nat.
Proof.
  induction s1 as [| c s1 IH]; [reflexivity |].
  change (String c s1 +:+ s2) with (String c (s1 +:+ s2)).
  simpl. rewrite IH. reflexivity.
Qed.

Lemma list_byte_of_string_inj (s1 s2 : string) :
  list_byte_of_string s1 = list_byte_of_string s2 -> s1 = s2.
Proof.
  intros H. rewrite <- (string_of_list_byte_of_string s1),
              <- (string_of_list_byte_of_string s2), H. reflexivity.
Qed.

(** X8.  [getKey] maps different keys to different database keys, as
    strings and as the byte slices handed to the database; the database
    key is five bytes longer than the key, and therefore never the key
    itself. *)
Theorem getKey_injective (k1 k2 : string) :
  (Simple.getKey k1 = Simple.getKey k2 <-> k1 = k2) /\
  (list_byte_of_string (Simple.getKey k1)
   = list_byte_of_string (Simple.getKey k2) <-> k1 = k2) /\
  String.length (Simple.getKey k1) = (String.length k1 + 5)%nat.
Proof.
  assert (Hinj : Simple.getKey k1 = Simple.getKey k2 -> k1 = k2).
  { rewrite !getKey_prefix. apply String.app_inj. }
  split; [split; [exact Hinj | intros ->; reflexivity] |].
  split.
  - split; [| intros ->; reflexivity].
    intros H. apply Hinj, list_byte_of_string_inj, H.
  - rewrite getKey_prefix, string_length_app. simpl. lia.
Qed.

Section EthDBMore.
Import Simple.
Context {D V : Type} {database : Database D} {json : Json V}.

(** X9.  On a store that keeps its keys apart, [Save] under one key
    does not disturb what [Restore] finds under any other key, whether
    the [Save] succeeds or fails. *)
Theorem Save_other_key
    {sep : Separate D} (e : ethDB D) (k1 k2 : string) (v val : V) :
  k2 <> k1 ->
  Restore (fst (Save e k1 v)) k2 val = Restore e k2 val.
Proof.
  intros Hne. unfold Save, Restore.
  destruct (Marshal v) as [blob | err]; [| reflexivity].
  simpl. rewrite get_put_other; [reflexivity |].
  intros H. apply Hne.
  apply list_byte_of_string_inj in H. rewrite !getKey_prefix in H.
  apply String.app_inj in H. exact H.
Qed.

End EthDBMore.

Lemma memDatabase_separate : Separate (gmap string Bytes).
Proof.
  intros d k blob k' Hne. simpl.
  rewrite lookup_insert_ne; [reflexivity |].
  intros H. apply Hne.
  rewrite <- (list_byte_of_string_of_list_byte k),
          <- (list_byte_of_string_of_list_byte k'), H. reflexivity.
Qed.

Lemma Save_other_key_witness :
  "b" <> "a" /\
  Simple.Restore
    (fst (Simple.Save
            (fst (Simple.Save (Simple.newDBer (∅ : gmap string Bytes))
                              "b" (Simple.GoBool true)))
            "a" (Simple.GoBool false)))
    "b" (Simple.GoBool false)
  = (Simple.GoBool true, None).
Proof.
  assert (Hne : "b" <> "a") by discriminate.
  split; [exact Hne |].
  rewrite (Save_other_key (sep := memDatabase_separate) _ "a" "b" _ _ Hne).
  vm_compute. reflexivity.
Defined.

(** ** Package bzz: [Resolve] *)

Lemma string_app_assoc (s1 s2 s3 : string) :
  (s1 +:+ s2) +:+ s3 = s1 +:+ (s2 +:+ s3).
Proof.
  induction s1 as [| c s1 IH]; [reflexivity |].
  change (String c ((s1 +:+ s2) +:+ s3) = String c (s1 +:+ (s2 +:+ s3))).
  rewrite IH. reflexivity.
Qed.

Lemma hex_prefix_app (k : nat) (s t : string) :
  Bzz.hex_prefix k s = true -> Bzz.hex_prefix k (s +:+ t) = true.
Proof.
  revert s. induction k as [| k IH]; intros s; [reflexivity |].
  destruct s as [| c s]; [discriminate |].
  change (String c s +:+ t) with (String c (s +:+ t)). simpl.
  intros H. apply andb_true_iff in H as [Hc Hs].
  rewrite Hc, (IH s Hs). reflexivity.
Qed.

Section BzzFacts.
Import Bzz.
Context {env : Env}.

(** [Resolve] on the host it looks at: the host of [SplitHostPort], or
    the whole of [hostport] when the port is missing. *)
Lemma Resolve_run (self : Api) (hostport host : string) :
  ((exists port, SplitHostPort hostport = (host, port, None)) \/
   (exists h p, SplitHostPort hostport
                = (h, p, Some ("missing port in address " +:+ hostport)) /\
                host = hostport)) ->
  Resolve self hostport =
    if hashMatcher_MatchString host then (Some (Hex2Bytes host), None)
    else match Resolver self with
         | Some r =>
             (Some (fst (KeyToContentHash r (Sha3Hash (Hex2Bytes host)))),
              None)
         | None => (None, None)
         end.
Proof.
  unfold Resolve.
  intros [(port & ->) | (h & p & -> & ->)].
  - destruct (hashMatcher_MatchString host); [reflexivity |].
    destruct (Resolver self) as [r |]; [| reflexivity].
    destruct (KeyToContentHash r _); reflexivity.
  - destruct (decide _) as [_ | Hc]; [| contradiction].
    destruct (hashMatcher_MatchString hostport); [reflexivity |].
    destruct (Resolver self) as [r |]; [| reflexivity].
    destruct (KeyToContentHash r _); reflexivity.
Qed.

(** X10.  [Resolve] returns an error exactly when [SplitHostPort]
    fails with an error whose text is not the literal
    [missing port in address ] followed by [hostport]: the error is then
    [invalid host '<hostport>': <that text>] and the content hash is
    nil, and in every other case the error is nil.  The test is on the
    text of the library's error, so a missing port is tolerated only
    where the library words it in exactly this way. *)
Theorem Resolve_only_error (self : Api) (hostport : string) :
  (forall e,
     snd (Resolve self hostport) = Some e ->
     fst (Resolve self hostport) = None /\
     exists msg,
       snd (SplitHostPort hostport) = Some msg /\
       msg <> "missing port in address " +:+ hostport /\
       e = errOther ("invalid host '" +:+ hostport +:+ "': " +:+ msg)) /\
  (forall msg,
     snd (SplitHostPort hostport) = Some msg ->
     msg <> "missing port in address " +:+ hostport ->
     Resolve self hostport
     = (None,
        Some (errOther ("invalid host '" +:+ hostport +:+ "': " +:+ msg)))).
Proof.
  unfold Resolve.
  destruct (SplitHostPort hostport) as [[host port] [msg |]]; simpl.
  - destruct (decide _) as [Heq | Hne].
    + split.
      * destruct (hashMatcher_MatchString hostport); [discriminate |].
        destruct (Resolver self) as [r |]; [| discriminate].
        destruct (KeyToContentHash r _); discriminate.
      * intros msg' [= <-] Hne. contradiction.
    + split.
      * simpl. intros e [= <-]. split; [reflexivity |].
        exists msg. auto.
      * intros msg' [= <-] _. reflexivity.
  - split; [| discriminate].
    destruct (hashMatcher_MatchString host); [discriminate |].
    destruct (Resolver self) as [r |]; [| discriminate].
    destruct (KeyToContentHash r _); discriminate.
Qed.

(** X11.  For a host that is not a content hash, [Resolve] keeps the
    failure to itself: without a resolver it returns a nil content hash
    and a nil error, and with a resolver it returns the hash that
    [KeyToContentHash] handed back and a nil error, whatever error came
    with that hash. *)
Theorem Resolve_swallows_resolver_errors
    (self : Api) (hostport host : string) :
  ((exists port, SplitHostPort hostport = (host, port, None)) \/
   (exists h p, SplitHostPort hostport
                = (h, p, Some ("missing port in address " +:+ hostport)) /\
                host = hostport)) ->
  hashMatcher_MatchString host = false ->
  (Resolver self = None -> Resolve self hostport = (None, None)) /\
  (forall r hash err,
     Resolver self = Some r ->
     KeyToContentHash r (Sha3Hash (Hex2Bytes host)) = (hash, err) ->
     Resolve self hostport = (Some hash, None)).
Proof.
  intros Hhost Hm. rewrite (Resolve_run self hostport host Hhost), Hm.
  split.
  - intros ->. reflexivity.
  - intros r hash err -> Hk. rewrite Hk. reflexivity.
Qed.

(** X12.  A host that begins with 64 hexadecimal digits is taken as a
    content hash, whatever follows the digits: [Resolve] returns
    [Hex2Bytes] of the whole host and a nil error, and the resolver is
    not consulted, so every [Api] gives the same answer. *)
Theorem Resolve_hash_host
    (self : Api) (hostport hash rest : string) :
  ((exists port, SplitHostPort hostport = (hash +:+ rest, port, None)) \/
   (exists h p, SplitHostPort hostport
                = (h, p, Some ("missing port in address " +:+ hostport)) /\
                hash +:+ rest = hostport)) ->
  hashMatcher_MatchString hash = true ->
  Resolve self hostport = (Some (Hex2Bytes (hash +:+ rest)), None) /\
  forall other, Resolve other hostport = Resolve self hostport.
Proof.
  intros Hhost Hm.
  assert (Hm' : hashMatcher_MatchString (hash +:+ rest) = true)
    by (apply hex_prefix_app, Hm).
  split; [| intros other];
    rewrite !(Resolve_run _ hostport (hash +:+ rest) Hhost), Hm';
    reflexivity.
Qed.

(** ** Package bzz: [Upload] *)

Lemma Upload_start_ge (localpath : string) :
  (String.length localpath <= Upload_start localpath)%nat.
Proof.
  unfold Upload_start.
  destruct (_ && _); lia.
Qed.

(** The walk up to an entry, when all entries before it pass. *)
Lemma Walk_stops (localpath : string) (pre rest : list WalkEntry)
    (e : WalkEntry) (files : list string) :
  Forall (passes localpath) pre ->
  filepath_Walk (walkFn localpath (Upload_start localpath))
                (pre ++ e :: rest) files
  = match walkFn localpath (Upload_start localpath)
                 (files ++ regular_files pre) e with
    | (files', None) =>
        filepath_Walk (walkFn localpath (Upload_start localpath)) rest files'
    | (files', Some err) => (files', Some err)
    end.
Proof.
  intros Hall. revert files.
  induction Hall as [| x pre [Herr Hfile] _ IH]; intros files.
  - simpl. unfold regular_files. simpl. rewrite app_nil_r. reflexivity.
  - simpl. unfold walkFn at 1. rewrite Herr.
    rewrite bool_decide_eq_true_2 by reflexivity.
    unfold regular_files. simpl.
    destruct (we_IsDir x) eqn:Hd; simpl.
    + apply IH.
    + destruct (Hfile eq_refl) as [Hlen Hpre].
      destruct (Nat.leb_spec (String.length (we_path x))
                             (Upload_start localpath)) as [Hle | _];
        [lia |].
      rewrite Hpre, String.eqb_refl. simpl.
      rewrite IH. unfold regular_files. rewrite <- app_assoc. reflexivity.
Qed.

(** A walk whose entries all pass collects the regular files. *)
Lemma Walk_collects (localpath : string) (entries : list WalkEntry)
    (files : list string) :
  Forall (passes localpath) entries ->
  filepath_Walk (walkFn localpath (Upload_start localpath)) entries files
  = (files ++ regular_files entries, None).
Proof.
  intros Hall. revert files.
  induction Hall as [| e entries [Herr Hfile] _ IH]; intros files.
  - simpl. rewrite app_nil_r. reflexivity.
  - simpl. unfold walkFn at 1. rewrite Herr.
    rewrite bool_decide_eq_true_2 by reflexivity.
    unfold regular_files. simpl.
    destruct (we_IsDir e) eqn:Hd; simpl.
    + apply IH.
    + destruct (Hfile eq_refl) as [Hlen Hpre].
      destruct (Nat.leb_spec (String.length (we_path e))
                             (Upload_start localpath)) as [Hle | _];
        [lia |].
      rewrite Hpre, String.eqb_refl. simpl.
      rewrite IH. unfold regular_files. rewrite <- app_assoc. reflexivity.
Qed.

Lemma manifest_entry_sc (hash : Key) (path sc : string) :
  manifest_entry hash path sc = manifest_entry hash path "" +:+ sc.
Proof.
  unfold manifest_entry. rewrite !string_app_assoc. reflexivity.
Qed.

(** The loop over files that were all stored: the separator is a comma
    up to the last file, and the closing of the manifest after it. *)
Lemma manifest_loop_ok (localpath : string) (cnt : nat)
    (files : list string) (i : nat) (buffer : string) :
  files <> [] ->
  (i + length files = cnt)%nat ->
  Forall (fun p => snd (openAndStore p) = None) files ->
  manifest_loop cnt (Upload_start localpath) i
                (combine files (List.map openAndStore files)) buffer ","
  = Ok (buffer
        +:+ Simple.strings_Join (List.map (entry_of localpath) files) ","
        +:+ "]}").
Proof.
  revert i buffer.
  induction files as [| p files IH]; intros i buffer Hne Hlen Hok;
    [contradiction |].
  apply Forall_cons in Hok as [Hp Hok].
  cbn [List.map combine manifest_loop].
  destruct (openAndStore p) as [h e] eqn:Hs. simpl in Hp. subst e.
  destruct files as [| q files].
  - simpl in Hlen.
    destruct (decide (Z.of_nat i = Z.of_nat cnt - 1)) as [_ | Hc]; [| lia].
    simpl. unfold entry_of. rewrite Hs. simpl.
    rewrite (manifest_entry_sc h _ "]}"). reflexivity.
  - simpl in Hlen.
    destruct (decide (Z.of_nat i = Z.of_nat cnt - 1)) as [Hc | _]; [lia |].
    rewrite IH; [| discriminate | simpl; lia | exact Hok].
    f_equal.
    change (Simple.strings_Join
              (List.map (entry_of localpath) (p :: q :: files)) ",")
      with (entry_of localpath p +:+ "," +:+
            Simple.strings_Join
              (List.map (entry_of localpath) (q :: files)) ",").
    unfold entry_of at 2. rewrite Hs. simpl.
    rewrite (manifest_entry_sc h _ ","), !string_app_assoc. reflexivity.
Qed.

(** The loop stops at the first file that was not stored. *)
Lemma manifest_loop_err (localpath : string) (cnt : nat)
    (l1 l2 : list string) (p : string) (e : Error) (i : nat)
    (buffer sc : string) :
  Forall (fun p => snd (openAndStore p) = None) l1 ->
  snd (openAndStore p) = Some e ->
  manifest_loop cnt (Upload_start localpath) i
                (combine (l1 ++ p :: l2)
                         (List.map openAndStore (l1 ++ p :: l2))) buffer sc
  = Err e.
Proof.
  intros Hok Hp. revert i buffer sc.
  induction Hok as [| q l1 Hq _ IH]; intros i buffer sc.
  - simpl. destruct (openAndStore p) as [h e']. simpl in Hp. subst e'.
    reflexivity.
  - simpl. destruct (openAndStore q) as [h e']. simpl in Hq. subst e'.
    apply IH.
Qed.

(** X13.  [Upload] of a path that is a regular file and not a
    directory fails: the walk starts at the file itself, whose path is
    no longer than [start], and the callback rejects it with
    [Path is too short]. *)
Theorem Upload_regular_file
    (self : Api) (localpath : string) (rest : list WalkEntry) :
  Walk (ExpandHomePath localpath)
  = mkWalkEntry (ExpandHomePath localpath) false None :: rest ->
  Upload self localpath = ("", Some (errOther "Path is too short")).
Proof.
  intros HW. unfold Upload. rewrite HW. simpl.
  unfold walkFn. simpl.
  destruct (Nat.leb_spec (String.length (ExpandHomePath localpath))
              (Upload_start (ExpandHomePath localpath))) as [_ | Hlt].
  - reflexivity.
  - pose proof (Upload_start_ge (ExpandHomePath localpath)). lia.
Qed.

(** X14.  [Upload] of a tree without regular files stores the opening
    of the manifest alone, the text [{"entries":[] without the closing
    bracket and brace, and returns the key of that text with the error
    of the store: the closing is only ever written after the last
    file. *)
Theorem Upload_no_files (self : Api) (localpath : string) :
  Forall (fun e => we_err e = None /\ we_IsDir e = true)
         (Walk (ExpandHomePath localpath)) ->
  Upload self localpath
  = (hex064 (fst (Store (list_byte_of_string manifest_open))),
     snd (Store (list_byte_of_string manifest_open))).
Proof.
  intros Hdirs. unfold Upload.
  assert (Hpass : Forall (passes (ExpandHomePath localpath))
                         (Walk (ExpandHomePath localpath))).
  { eapply Forall_impl; [exact Hdirs |].
    intros e [He Hd]. split; [exact He |]. rewrite Hd. discriminate. }
  rewrite (Walk_collects _ _ [] Hpass).
  assert (Hnone : regular_files (Walk (ExpandHomePath localpath)) = []).
  { unfold regular_files. clear Hpass.
    induction Hdirs as [| e l [_ Hd] _ IH]; [reflexivity |].
    simpl. rewrite Hd. simpl. exact IH. }
  rewrite Hnone. simpl.
  destruct (Store (list_byte_of_string manifest_open)); reflexivity.
Qed.

(** X15.  When the walk meets no error, every regular file lies under
    [localpath], there is at least one, and each has been stored, the
    manifest that [Upload] stores is the opening, one entry per regular
    file in the order of the walk, with the hash of the file and its
    path relative to [localpath], commas between the entries, and the
    closing; [Upload] returns the key of the manifest in hexadecimal and
    the error of the store. *)
Theorem Upload_manifest (self : Api) (localpath : string) :
  let root := ExpandHomePath localpath in
  let files := regular_files (Walk root) in
  let manifest :=
    manifest_open
    +:+ Simple.strings_Join (List.map (entry_of root) files) ","
    +:+ "]}" in
  Forall (passes root) (Walk root) ->
  files <> [] ->
  Forall (fun p => snd (openAndStore p) = None) files ->
  Upload self localpath
  = (hex064 (fst (Store (list_byte_of_string manifest))),
     snd (Store (list_byte_of_string manifest))).
Proof.
  intros root files manifest Hpass Hne Hok. unfold Upload. fold root.
  rewrite (Walk_collects root _ [] Hpass). simpl. fold files.
  rewrite (manifest_loop_ok root (length files) files 0 manifest_open
             Hne eq_refl Hok).
  fold manifest. destruct (Store (list_byte_of_string manifest)); reflexivity.
Qed.

(** [Upload_run] has the result of [Upload]. *)
Lemma Upload_run_result (self : Api) (localpath : string) :
  fst (Upload_run self localpath) = Upload self localpath.
Proof.
  unfold Upload_run, Upload.
  destruct (filepath_Walk _ _ _) as [files [err |]]; [reflexivity |].
  destruct (manifest_loop _ _ _ _ _ _) as [manifest | err]; [| reflexivity].
  destruct (Store _); reflexivity.
Qed.

(** X16.  When a file could not be opened or stored, [Upload] returns
    the empty string and the error of the first such file in the order
    of the walk, whatever became of the files after it.  The calls it
    has made are the goroutines of the files, one for every file, those
    after the failing file included; the manifest is not stored. *)
Theorem Upload_first_failure
    (self : Api) (localpath : string) (l1 l2 : list string) (p : string)
    (e : Error) :
  let root := ExpandHomePath localpath in
  Forall (passes root) (Walk root) ->
  regular_files (Walk root) = l1 ++ p :: l2 ->
  Forall (fun p => snd (openAndStore p) = None) l1 ->
  snd (openAndStore p) = Some e ->
  Upload self localpath = ("", Some e) /\
  Upload_run self localpath
  = ("", Some e, List.map OpenAndStore (l1 ++ p :: l2)) /\
  forall manifest,
    ~ In (StoreManifest manifest) (snd (Upload_run self localpath)).
Proof.
  intros root Hpass Hfiles Hok Hp.
  assert (Hrun : Upload_run self localpath
                 = ("", Some e, List.map OpenAndStore (l1 ++ p :: l2))).
  { unfold Upload_run. fold root.
    rewrite (Walk_collects root _ [] Hpass). simpl. rewrite Hfiles.
    rewrite (manifest_loop_err root _ l1 l2 p e 0 manifest_open "," Hok Hp).
    reflexivity. }
  split; [rewrite <- Upload_run_result, Hrun; reflexivity |].
  split; [exact Hrun |].
  intros manifest. rewrite Hrun. simpl.
  intros Hin. apply in_map_iff in Hin as (x & Hx & _). discriminate.
Qed.

(** X17.  An error that the walk reports for an entry, a directory
    that cannot be read for one, ends [Upload] with that error and the
    empty string; no goroutine has been started and nothing has been
    stored by then: [Upload] has made no call into the DPA and has
    opened no file. *)
Theorem Upload_walk_error
    (self : Api) (localpath : string) (pre rest : list WalkEntry)
    (x : WalkEntry) (e : Error) :
  let root := ExpandHomePath localpath in
  Walk root = pre ++ x :: rest ->
  Forall (passes root) pre ->
  we_err x = Some e ->
  Upload self localpath = ("", Some e) /\
  Upload_run self localpath = ("", Some e, []).
Proof.
  intros root HW Hpass Hx.
  assert (Hrun : Upload_run self localpath = ("", Some e, [])).
  { unfold Upload_run. fold root.
    rewrite HW, (Walk_stops root pre rest x [] Hpass).
    unfold walkFn. rewrite Hx. simpl. reflexivity. }
  split; [rewrite <- Upload_run_result, Hrun; reflexivity | exact Hrun].
Qed.

End BzzFacts.

(** ** Package bzz on a small file system *)

(** Too many colons are an invalid host; and so is a missing port,
    where the library words it with the address in front. *)
Lemma Resolve_only_error_witness :
  Bzz.Resolve (env := env_tree) api_plain "a:1:2"
  = (None,
     Some (errOther
             "invalid host 'a:1:2': too many colons in address a:1:2")) /\
  Bzz.Resolve (env := env_reworded) api_plain "example.eth"
  = (None,
     Some (errOther
             ("invalid host 'example.eth': "
              +:+ "address example.eth: missing port in address"))).
Proof.
  split.
  - apply (proj2 (Resolve_only_error (env := env_tree) api_plain "a:1:2")
             "too many colons in address a:1:2" eq_refl).
    discriminate.
  - apply (proj2 (Resolve_only_error (env := env_reworded) api_plain
                    "example.eth")
             "address example.eth: missing port in address" eq_refl).
    discriminate.
Defined.

Lemma Resolve_swallows_resolver_errors_witness :
  Bzz.SplitHostPort (Env := env_tree) "example.eth:80"
  = ("example.eth", "80", None) /\
  Bzz.hashMatcher_MatchString "example.eth" = false /\
  Bzz.Resolve (env := env_tree) api_plain "example.eth:80" = (None, None) /\
  Bzz.Resolve (env := env_tree) api_failing "example.eth:80"
  = (Some (List.repeat Byte.x00 32), None).
Proof.
  assert (Hs : Bzz.SplitHostPort (Env := env_tree) "example.eth:80"
               = ("example.eth", "80", None)) by reflexivity.
  assert (Hm : Bzz.hashMatcher_MatchString "example.eth" = false)
    by reflexivity.
  split; [exact Hs |]. split; [exact Hm |]. split.
  - apply (proj1 (Resolve_swallows_resolver_errors (env := env_tree)
                    api_plain "example.eth:80" "example.eth"
                    (or_introl (ex_intro _ "80" Hs)) Hm)).
    reflexivity.
  - apply (proj2 (Resolve_swallows_resolver_errors (env := env_tree)
                    api_failing "example.eth:80" "example.eth"
                    (or_introl (ex_intro _ "80" Hs)) Hm)
             _ _ (Some (errOther "not found")) eq_refl).
    reflexivity.
Defined.

Lemma Resolve_hash_host_witness :
  Bzz.SplitHostPort (Env := env_tree) (hash64 +:+ "zz:80")
  = (hash64 +:+ "zz", "80", None) /\
  Bzz.hashMatcher_MatchString hash64 = true /\
  Bzz.Resolve (env := env_tree) api_failing (hash64 +:+ "zz:80")
  = (Some (list_byte_of_string (hash64 +:+ "zz")), None).
Proof.
  assert (Hs : Bzz.SplitHostPort (Env := env_tree) (hash64 +:+ "zz:80")
               = (hash64 +:+ "zz", "80", None)) by reflexivity.
  assert (Hm : Bzz.hashMatcher_MatchString hash64 = true) by reflexivity.
  split; [exact Hs |]. split; [exact Hm |].
  exact (proj1 (Resolve_hash_host (env := env_tree) api_failing
                  (hash64 +:+ "zz:80") hash64 "zz"
                  (or_introl (ex_intro _ "80" Hs)) Hm)).
Defined.

Lemma Upload_regular_file_witness :
  Bzz.Walk (Env := env_file) "/d/a" = [Bzz.mkWalkEntry "/d/a" false None] /\
  Bzz.Upload (env := env_file) api_plain "/d/a"
  = ("", Some (errOther "Path is too short")).
Proof.
  assert (HW : Bzz.Walk (Env := env_file) "/d/a"
               = [Bzz.mkWalkEntry "/d/a" false None]) by reflexivity.
  split; [exact HW |].
  exact (Upload_regular_file (env := env_file) api_plain "/d/a" [] HW).
Defined.

Lemma Upload_no_files_witness :
  Forall (fun e => Bzz.we_err e = None /\ Bzz.we_IsDir e = true)
         (Bzz.Walk (Env := env_empty) "/d") /\
  Bzz.Upload (env := env_empty) api_plain "/d"
  = (test_hex064 (list_byte_of_string Bzz.manifest_open), None).
Proof.
  assert (H : Forall (fun e => Bzz.we_err e = None /\ Bzz.we_IsDir e = true)
                     (Bzz.Walk (Env := env_empty) "/d")).
  { repeat constructor. }
  split; [exact H |].
  exact (Upload_no_files (env := env_empty) api_plain "/d" H).
Defined.

Lemma tree_passes (unreadable : list string) :
  Forall (passes (env := testEnv tree_walk unreadable) "/d")
         (tree_walk "/d").
Proof.
  repeat constructor; simpl; try discriminate; vm_compute; lia.
Qed.

Lemma Upload_manifest_witness :
  Forall (passes (env := env_tree) "/d") (Bzz.Walk (Env := env_tree) "/d") /\
  regular_files (Bzz.Walk (Env := env_tree) "/d") = ["/d/a"; "/d/sub/b"] /\
  Bzz.Upload (env := env_tree) api_plain "/d"
  = (test_hex064
       (list_byte_of_string
          (Bzz.manifest_open
           +:+ entry_of (env := env_tree) "/d" "/d/a" +:+ ","
           +:+ entry_of (env := env_tree) "/d" "/d/sub/b" +:+ "]}")),
     None).
Proof.
  pose proof (tree_passes [] : Forall (passes (env := env_tree) "/d")
                                      (Bzz.Walk (Env := env_tree) "/d")) as Hp.
  split; [exact Hp |]. split; [reflexivity |].
  apply (Upload_manifest (env := env_tree) api_plain "/d" Hp).
  - discriminate.
  - repeat constructor.
Defined.

Lemma Upload_first_failure_witness :
  regular_files (Bzz.Walk (Env := env_unreadable) "/d")
  = ["/d/a"] ++ "/d/sub/b" :: [] /\
  snd (Bzz.openAndStore (Env := env_unreadable) "/d/sub/b")
  = Some (errOther "open: permission denied") /\
  Bzz.Upload (env := env_unreadable) api_plain "/d"
  = ("", Some (errOther "open: permission denied")) /\
  Bzz.Upload_run (env := env_unreadable) api_plain "/d"
  = ("", Some (errOther "open: permission denied"),
     [Bzz.OpenAndStore "/d/a"; Bzz.OpenAndStore "/d/sub/b"]).
Proof.
  split; [reflexivity |]. split; [reflexivity |].
  destruct (Upload_first_failure (env := env_unreadable) api_plain "/d"
              ["/d/a"] [] "/d/sub/b" (errOther "open: permission denied")
              (tree_passes ["/d/sub/b"]) eq_refl
              ltac:(repeat constructor) eq_refl)
    as (H1 & H2 & _).
  split; [exact H1 | exact H2].
Defined.

(** With every file readable, the same tree is uploaded, and the store
    of the manifest is the last call. *)
Example Upload_run_tree :
  snd (Bzz.Upload_run (env := env_tree) api_plain "/d")
  = [Bzz.OpenAndStore "/d/a"; Bzz.OpenAndStore "/d/sub/b";
     Bzz.StoreManifest
       (list_byte_of_string
          (Bzz.manifest_open
           +:+ entry_of (env := env_tree) "/d" "/d/a" +:+ ","
           +:+ entry_of (env := env_tree) "/d" "/d/sub/b" +:+ "]}"))].
Proof. vm_compute. reflexivity. Qed.

Lemma Upload_walk_error_witness :
  Bzz.Walk (Env := env_denied) "/d"
  = [Bzz.mkWalkEntry "/d" true None; Bzz.mkWalkEntry "/d/a" false None]
    ++ Bzz.mkWalkEntry "/d/sub" true
         (Some (errOther "open: permission denied")) :: [] /\
  Bzz.Upload (env := env_denied) api_plain "/d"
  = ("", Some (errOther "open: permission denied")) /\
  Bzz.Upload_run (env := env_denied) api_plain "/d"
  = ("", Some (errOther "open: permission denied"), []).
Proof.
  split; [reflexivity |].
  apply (Upload_walk_error (env := env_denied) api_plain "/d"
           [Bzz.mkWalkEntry "/d" true None; Bzz.mkWalkEntry "/d/a" false None]
           [] _ _ eq_refl).
  - repeat constructor; simpl; try discriminate; vm_compute; lia.
  - reflexivity.
Defined.
